(** * Achievement progress, earning plan and timed workflows

    A shallow embedding of [scripts/badge_tracker.py],
    [scripts/badge_orchestrator.py] and the fast-close routine of
    [scripts/quickdraw_automation.py], followed by the properties of the
    progress model, the plan classifier and the timed workflows.

    Python integers are [Z]; dictionaries are association lists in insertion
    order (the order Python iterates them in); [None] is [option]'s [None];
    a call that may raise returns a sum or an option. *)

From Stdlib Require Import ZArith List String Bool Lia ListSet Sorted.
From Stdlib Require Import DecimalString Ascii.
Import ListNotations.
Local Open Scope string_scope.
Local Open Scope list_scope.
Local Open Scope Z_scope.

(** ** Python dictionaries *)

Module Dict.
Section Defs.
Context {V : Type}.

Definition t := list (string * V).

(** [d.get(k)] *)
Fixpoint get (d : t) (k : string) : option V :=
  match d with
  | [] => None
  | (k', v) :: d' => if String.eqb k k' then Some v else get d' k
  end.

(** [d[k] = v]: an existing key keeps its position, a new key goes last. *)
Fixpoint set (d : t) (k : string) (v : V) : t :=
  match d with
  | [] => [(k, v)]
  | (k', v') :: d' =>
      if String.eqb k k' then (k', v) :: d' else (k', v') :: set d' k v
  end.

(** [list(d.keys())] *)
Definition keys (d : t) : list string := map fst d.
End Defs.
Arguments t : clear implicits.
End Dict.

(** [name in [a, b, ...]] on a list of strings *)
Definition str_in (s : string) (l : list string) : bool :=
  existsb (String.eqb s) l.

(** ** badge_tracker.py *)

(** One badge of [self.badges]. *)
Module Badge.
Record info := Build {
  description : string;
  tiers : Dict.t Z;
  check_method : string
}.
End Badge.

(** The dictionary stored under ["next_requirement"]. *)
Module Next.
Record t := Build {
  tier : string;
  count : Z;
  needed : Z
}.
End Next.

(** One value of the dictionary [get_badge_progress] returns.  The key
    ["error"] exists only in entries written by the exception handler. *)
Module Progress.
Record entry := Build {
  current : Z;
  achieved_tier : option string;
  next_requirement : option Next.t;
  description : string;
  tiers : Dict.t Z;
  error : option string
}.
End Progress.

(** What iterating a lazily fetched sequence does: it stops, it yields an
    element, or fetching the next page raises. *)
Inductive paged (A : Type) : Type :=
| Stop
| Yield (a : A) (rest : paged A)
| Broken.
Arguments Stop {A}.
Arguments Yield {A} a rest.
Arguments Broken {A}.

(** [seq[:n]] on a lazily fetched sequence *)
Fixpoint slice {A} (n : nat) (p : paged A) : paged A :=
  match n with
  | O => Stop
  | S n' =>
      match p with
      | Stop => Stop
      | Yield a rest => Yield a (slice n' rest)
      | Broken => Broken
      end
  end.

(** The attribute [pr.repository]: absent, present with its [full_name], or
    raising when it is read. *)
Inductive repository_attr :=
| NoRepository
| Repository (full_name : string)
| RepositoryError.

Record PullRequest := { repository : repository_attr }.

Record Repo := { private : bool; stargazers_count : Z }.

(** The object [self.github.search_issues(query)] returns.  [totalCount] is
    a property that queries the service: [None] when reading it raises. *)
Record SearchResult := {
  totalCount : option Z;
  results : paged PullRequest
}.

(** The hosted service as the tracker's queries see it.  [None] is a call
    that raises (building the query from [self.user.login] included). *)
Record External := {
  search_issues : option SearchResult;
  get_repos : option (paged Repo)
}.

Module BadgeTracker.

(** [self.badges], in declaration order *)
Definition badges : Dict.t Badge.info :=
  [ ("Heart On Your Sleeve",
     Badge.Build "Submit a pull request that gets merged"
       [("Default", 1); ("Bronze", 2); ("Silver", 4); ("Gold", 8)]
       "count_merged_prs");
    ("Open Sourcerer",
     Badge.Build "User had PRs merged in multiple public repositories"
       [("Default", 1); ("Bronze", 2); ("Silver", 3); ("Gold", 4)]
       "count_repos_with_merged_prs");
    ("Starstruck",
     Badge.Build "Created a repository that has many stars"
       [("Default", 16); ("Bronze", 128); ("Silver", 512); ("Gold", 4096)]
       "count_max_stars");
    ("Quickdraw",
     Badge.Build "Closed an issue/pull request within 5 minutes of opening"
       [("Default", 1)]
       "check_quickdraw");
    ("Pair Extraordinaire",
     Badge.Build "Coauthored commits on merged pull request"
       [("Default", 1); ("Bronze", 10); ("Silver", 24); ("Gold", 48)]
       "count_coauthored_commits");
    ("Pull Shark",
     Badge.Build "Opened a pull request that has been merged"
       [("Default", 2); ("Bronze", 16); ("Silver", 128); ("Gold", 1024)]
       "count_merged_prs");
    ("Galaxy Brain",
     Badge.Build "Answered a discussion (got an accepted answer)"
       [("Default", 2); ("Bronze", 8); ("Silver", 16); ("Gold", 32)]
       "count_discussion_answers");
    ("YOLO",
     Badge.Build "Merged a pull request without a review"
       [("Default", 1)]
       "check_yolo_merges");
    ("Public Sponsor",
     Badge.Build
       "Sponsored an open source contributor through GitHub Sponsors"
       [("Default", 1)]
       "check_sponsorships") ].

(** *** The check methods *)

(** [count = 0; try: count = search_issues(query).totalCount
    except Exception: warn; return count] *)
Definition count_merged_prs (ext : External) : Z :=
  match search_issues ext with
  | Some prs =>
      match totalCount prs with
      | Some n => n
      | None => 0
      end
  | None => 0
  end.

(** The loop [for pr in prs[:100]: if hasattr(pr, 'repository'):
    repos.add(pr.repository.full_name)], run on the set [repos]; an
    exception leaves the loop with the set as it is. *)
Fixpoint collect_repos (prs : paged PullRequest) (repos : set string)
  : set string :=
  match prs with
  | Stop => repos
  | Broken => repos
  | Yield pr rest =>
      match repository pr with
      | NoRepository => collect_repos rest repos
      | Repository full_name =>
          collect_repos rest (set_add string_dec full_name repos)
      | RepositoryError => repos
      end
  end.

Definition count_repos_with_merged_prs (ext : External) : Z :=
  let repos :=
    match search_issues ext with
    | Some prs => collect_repos (slice 100 (results prs)) (empty_set string)
    | None => empty_set string
    end in
  Z.of_nat (List.length repos).

(** The loop [for repo in repos: if not repo.private and
    repo.stargazers_count > max_stars: max_stars = repo.stargazers_count] *)
Fixpoint scan_stars (repos : paged Repo) (max_stars : Z) : Z :=
  match repos with
  | Stop => max_stars
  | Broken => max_stars
  | Yield repo rest =>
      if negb (private repo) && (stargazers_count repo >? max_stars)
      then scan_stars rest (stargazers_count repo)
      else scan_stars rest max_stars
  end.

Definition count_max_stars (ext : External) : Z :=
  match get_repos ext with
  | Some repos => scan_stars repos 0
  | None => 0
  end.

Definition check_quickdraw (ext : External) : Z := 0.
Definition count_coauthored_commits (ext : External) : Z := 0.
Definition count_discussion_answers (ext : External) : Z := 0.
Definition check_yolo_merges (ext : External) : Z := 0.
Definition check_sponsorships (ext : External) : Z := 0.

(** The methods [getattr(self, method_name)] can find. *)
Definition methods : Dict.t (External -> Z) :=
  [ ("count_merged_prs", count_merged_prs);
    ("count_repos_with_merged_prs", count_repos_with_merged_prs);
    ("count_max_stars", count_max_stars);
    ("check_quickdraw", check_quickdraw);
    ("count_coauthored_commits", count_coauthored_commits);
    ("count_discussion_answers", count_discussion_answers);
    ("check_yolo_merges", check_yolo_merges);
    ("check_sponsorships", check_sponsorships) ].

(** *** get_badge_progress *)

(** How the call [getattr(self, method_name)()] ends. *)
Inductive outcome :=
| Returned (current_count : Z)
| Raised (e : string).

(** What one badge's check meets: the service as it is when the check
    runs, and possibly an exception that leaves the check method (the
    methods catch what their queries raise, not what their own console
    output raises). *)
Record Observation := {
  service : External;
  fault : option string
}.

(** The badges are checked one after the other; the name of a badge
    selects what its check meets. *)
Definition Environment := string -> Observation.

(** [if hasattr(self, method_name): current_count = getattr(self,
    method_name)() else: current_count = 0] *)
Definition run_check (obs : Observation) (method_name : string) : outcome :=
  match Dict.get methods method_name with
  | Some method =>
      match fault obs with
      | Some e => Raised e
      | None => Returned (method (service obs))
      end
  | None => Returned 0
  end.

(** [sorted(tiers.items(), key=lambda x: x[1])]: a stable sort on the
    requirement. *)
Fixpoint insert_tier (x : string * Z) (l : list (string * Z))
  : list (string * Z) :=
  match l with
  | [] => [x]
  | y :: l' => if snd x <=? snd y then x :: y :: l' else y :: insert_tier x l'
  end.

Definition sorted_tiers (tiers : Dict.t Z) : list (string * Z) :=
  fold_right insert_tier [] tiers.

(** [for tier, requirement in ...: if current_count >= requirement:
    achieved_tier = tier] *)
Definition scan_achieved (current_count : Z) (ordered : list (string * Z))
  : option string :=
  fold_left
    (fun achieved_tier '(tier, requirement) =>
       if current_count >=? requirement then Some tier else achieved_tier)
    ordered None.

(** [for tier, requirement in ...: if current_count < requirement:
    next_requirement = {...}; break] *)
Fixpoint find_next (current_count : Z) (ordered : list (string * Z))
  : option Next.t :=
  match ordered with
  | [] => None
  | (tier, requirement) :: rest =>
      if current_count <? requirement
      then Some (Next.Build tier requirement (requirement - current_count))
      else find_next current_count rest
  end.

(** The body of the loop over the badges: the entry written for one
    badge, by the [try] block or by its handler. *)
Definition badge_entry (badge_info : Badge.info) (o : outcome)
  : Progress.entry :=
  match o with
  | Returned current_count =>
      let ordered := sorted_tiers (Badge.tiers badge_info) in
      Progress.Build
        current_count
        (scan_achieved current_count ordered)
        (find_next current_count ordered)
        (Badge.description badge_info)
        (Badge.tiers badge_info)
        None
  | Raised e =>
      Progress.Build
        0 None None
        (Badge.description badge_info)
        (Badge.tiers badge_info)
        (Some e)
  end.

(** [get_badge_progress], for any dictionary of badges. *)
Definition get_badge_progress_of (self_badges : Dict.t Badge.info)
    (env : Environment) : Dict.t Progress.entry :=
  fold_left
    (fun progress '(badge_name, badge_info) =>
       Dict.set progress badge_name
         (badge_entry badge_info
            (run_check (env badge_name) (Badge.check_method badge_info))))
    self_badges [].

Definition get_badge_progress (env : Environment) : Dict.t Progress.entry :=
  get_badge_progress_of badges env.

End BadgeTracker.

(** ** Calls to the hosted service made by the workflows *)

(** The calls of the workflows that reach the service. *)
Inductive call :=
| create_repo
| create_issue
| issue_edit_closed
| repo_delete
| get_branch
| create_git_ref
| create_file
| create_pull
| pr_merge
| get_repo
| issue_create_comment.

(** What a run does, in the order it does it. *)
Inductive event :=
| Call_ok (c : call)
| Call_raised (c : call)
| Sleep (seconds : Z).

(** The service decides, from what happened so far, whether a call
    raises. *)
Definition Oracle := list event -> call -> bool.

(** The platform's clock says which lengths [time.sleep] takes beyond the
    ones every platform takes. *)
Definition Clock := Z -> bool.

(** What leaves a piece of code that raises: the exception of a call to
    the service, or the one of a [time.sleep] that refuses its length. *)
Inductive exn :=
| Service_error (c : call)
| Sleep_error (seconds : Z).

Module Run.

(** The events so far, and whether the local variable [repo] is bound
    (what ['repo' in locals()] tests). *)
Record frame := Build {
  trace : list event;
  repo_bound : bool
}.

Definition start : frame := Build [] false.

(** A piece of a method body: it runs against the service from a frame,
    and returns a value or lets the exception of a call propagate. *)
Definition exec (A : Type) : Type := Oracle -> frame -> frame * (A + exn).

Definition ret {A} (a : A) : exec A := fun _ s => (s, inl a).

Definition bind {A B} (m : exec A) (k : A -> exec B) : exec B :=
  fun o s =>
    match m o s with
    | (s', inl a) => k a o s'
    | (s', inr e) => (s', inr e)
    end.

(** A call to the service. *)
Definition request (c : call) : exec unit :=
  fun o s =>
    if o (trace s) c
    then (Build (trace s ++ [Call_raised c]) (repo_bound s),
          inr (Service_error c))
    else (Build (trace s ++ [Call_ok c]) (repo_bound s), inl tt).

(** [time.sleep(seconds)] where [seconds] is a literal of the source (30,
    2 or 5): the time passes. *)
Definition sleep (seconds : Z) : exec unit :=
  fun _ s => (Build (trace s ++ [Sleep seconds]) (repo_bound s), inl tt).

(** Whether [time.sleep] takes an integer length.  It raises [ValueError]
    for a negative one, and [OverflowError] or [OSError] for one beyond
    what the platform's clock holds; the lengths of the source's own calls
    (30 seconds at most) are taken everywhere, the longer ones as [clock]
    has it. *)
Definition taken (clock : Clock) (seconds : Z) : bool :=
  (0 <=? seconds) && ((seconds <=? 30) || clock seconds).

(** [time.sleep(seconds)] where [seconds] is a variable: when the length
    is refused the exception is raised before any time passes. *)
Definition sleep_for (clock : Clock) (seconds : Z) : exec unit :=
  fun _ s =>
    if taken clock seconds
    then (Build (trace s ++ [Sleep seconds]) (repo_bound s), inl tt)
    else (s, inr (Sleep_error seconds)).

(** The assignment [repo = ...], once its right-hand side has returned. *)
Definition bind_repo : exec unit :=
  fun _ s => (Build (trace s) true, inl tt).

(** ['repo' in locals()] *)
Definition repo_in_locals : exec bool :=
  fun _ s => (s, inl (repo_bound s)).

(** [try: body except ...: handler] *)
Definition try_except {A} (body : exec A) (handler : exn -> exec A)
  : exec A :=
  fun o s =>
    match body o s with
    | (s', inl a) => (s', inl a)
    | (s', inr e) => handler e o s'
    end.

Declare Scope exec_scope.
Delimit Scope exec_scope with exec.
Notation "x <- m ;; k" := (bind m (fun x => k))
  (at level 61, m at next level, right associativity) : exec_scope.
Notation "m ;; k" := (bind m (fun _ => k))
  (at level 61, right associativity) : exec_scope.

(** A method call on a fresh frame: the events and the value returned
    ([None] if an exception left the method). *)
Definition run {A} (m : exec A) (o : Oracle) : list event * option A :=
  match m o start with
  | (s, inl a) => (trace s, Some a)
  | (s, inr _) => (trace s, None)
  end.

End Run.

(** ** badge_orchestrator.py: the earning plan *)

(** One element of a bucket.  The buckets store dictionaries with
    different keys; a key a bucket does not write is [None] here, and so
    is a ["next_requirement"] whose value is [None]. *)
Module Item.
Record t := Build {
  name : string;
  tier : option string;
  description : string;
  next_requirement : option Next.t;
  automated : option bool;
  manual_steps : option (list string);
  tools_available : option bool
}.
End Item.

Module Plan.
Record t := Build {
  immediate : list Item.t;
  quick : list Item.t;
  short_term : list Item.t;
  long_term : list Item.t;
  completed : list Item.t
}.
End Plan.

(** Truth value of [badge_info["achieved_tier"]]: [None] and the empty
    string are false. *)
Definition truthy (achieved_tier : option string) : bool :=
  match achieved_tier with
  | None => false
  | Some s => negb (String.eqb s "")
  end.

Module BadgeOrchestrator.

(** [self.earning_order] (easiest to hardest) *)
Definition earning_order : list string :=
  [ "Quickdraw"; "YOLO"; "Public Sponsor"; "Heart On Your Sleeve";
    "Open Sourcerer"; "Pair Extraordinaire"; "Pull Shark"; "Galaxy Brain";
    "Starstruck" ].

(** One round of the loop [for badge_name in self.earning_order]. *)
Definition plan_badge (progress : Dict.t Progress.entry) (plan : Plan.t)
    (badge_name : string) : Plan.t :=
  match Dict.get progress badge_name with
  | None => plan
  | Some badge_info =>
      let descr := Progress.description badge_info in
      let next := Progress.next_requirement badge_info in
      if truthy (Progress.achieved_tier badge_info) then
        Plan.Build
          (Plan.immediate plan) (Plan.quick plan) (Plan.short_term plan)
          (Plan.long_term plan)
          (Plan.completed plan ++
             [Item.Build badge_name (Progress.achieved_tier badge_info)
                descr None None None None])
      else if str_in badge_name ["Quickdraw"; "YOLO"] then
        Plan.Build
          (Plan.immediate plan ++
             [Item.Build badge_name None descr next (Some true) None None])
          (Plan.quick plan) (Plan.short_term plan) (Plan.long_term plan)
          (Plan.completed plan)
      else if str_in badge_name ["Public Sponsor"] then
        Plan.Build
          (Plan.immediate plan)
          (Plan.quick plan ++
             [Item.Build badge_name None descr next (Some false)
                (Some ["Go to GitHub Sponsors";
                       "Sponsor any developer $1/month"])
                None])
          (Plan.short_term plan) (Plan.long_term plan)
          (Plan.completed plan)
      else if str_in badge_name
                ["Heart On Your Sleeve"; "Open Sourcerer";
                 "Pair Extraordinaire"] then
        Plan.Build
          (Plan.immediate plan) (Plan.quick plan)
          (Plan.short_term plan ++
             [Item.Build badge_name None descr next (Some false) None
                (Some true)])
          (Plan.long_term plan) (Plan.completed plan)
      else
        Plan.Build
          (Plan.immediate plan) (Plan.quick plan) (Plan.short_term plan)
          (Plan.long_term plan ++
             [Item.Build badge_name None descr next (Some false) None
                (Some false)])
          (Plan.completed plan)
  end.

(** The loop of [get_earning_plan] on a progress dictionary. *)
Definition plan_of (progress : Dict.t Progress.entry) : Plan.t :=
  fold_left (plan_badge progress) earning_order
    (Plan.Build [] [] [] [] []).

(** [get_earning_plan]: [progress = self.tracker.get_badge_progress()],
    then the loop. *)
Definition get_earning_plan (env : BadgeTracker.Environment) : Plan.t :=
  plan_of (BadgeTracker.get_badge_progress env).

(** *** The timed workflows *)

Import Run.
Local Open Scope exec_scope.

Definition _earn_quickdraw_badge : exec bool :=
  try_except
    (request create_repo ;;
     bind_repo ;;
     request create_issue ;;
     sleep 30 ;;
     request issue_edit_closed ;;
     request repo_delete ;;
     ret true)
    (fun _ =>
       try_except
         (bound <- repo_in_locals ;;
          if bound then request repo_delete else ret tt)
         (fun _ => ret tt) ;;
       ret false).

Definition _earn_yolo_badge : exec bool :=
  try_except
    (request create_repo ;;
     bind_repo ;;
     request get_branch ;;
     request create_git_ref ;;
     request create_file ;;
     request create_pull ;;
     request pr_merge ;;
     request repo_delete ;;
     ret true)
    (fun _ =>
       try_except
         (bound <- repo_in_locals ;;
          if bound then request repo_delete else ret tt)
         (fun _ => ret tt) ;;
       ret false).

End BadgeOrchestrator.

(** ** quickdraw_automation.py *)

Module QuickdrawAutomation.

Import Run.
Local Open Scope exec_scope.

(** [create_and_close_issue_quickly(repo_name, delay_seconds=30)];
    [None] is a call that leaves [delay_seconds] out.  The sleep stands
    inside the [try], so a length that [time.sleep] refuses ends the
    routine in the handler as a failing call does. *)
Definition create_and_close_issue_quickly (clock : Clock)
    (delay_seconds : option Z) : exec bool :=
  let delay_seconds :=
    match delay_seconds with Some d => d | None => 30 end in
  try_except
    (request get_repo ;;
     request create_issue ;;
     sleep_for clock delay_seconds ;;
     request issue_create_comment ;;
     request issue_edit_closed ;;
     ret true)
    (fun _ => ret false).

End QuickdrawAutomation.

(** ** Reading a run as the workflow state machine *)

(** The resources a run creates. *)
Inductive artifact :=
| repository_handle
| issue_handle
| branch_handle
| file_handle
| pull_request_handle.

(** What a call that returned has created. *)
Definition creates (c : call) : option artifact :=
  match c with
  | create_repo => Some repository_handle
  | create_issue => Some issue_handle
  | create_git_ref => Some branch_handle
  | create_file => Some file_handle
  | create_pull => Some pull_request_handle
  | _ => None
  end.

(** What a call tries to delete. *)
Definition deletes (c : call) : option artifact :=
  match c with
  | repo_delete => Some repository_handle
  | _ => None
  end.

(** The handles created during a run, in creation order. *)
Fixpoint created (trace : list event) : list artifact :=
  match trace with
  | [] => []
  | Call_ok c :: rest =>
      match creates c with
      | Some a => a :: created rest
      | None => created rest
      end
  | _ :: rest => created rest
  end.

(** The handles a run tried to delete, whether the call returned or
    raised, in the order of the attempts. *)
Fixpoint cleanup_attempts (trace : list event) : list artifact :=
  match trace with
  | [] => []
  | Call_ok c :: rest | Call_raised c :: rest =>
      match deletes c with
      | Some a => a :: cleanup_attempts rest
      | None => cleanup_attempts rest
      end
  | Sleep _ :: rest => cleanup_attempts rest
  end.

(** What exists on the service after the events, starting from [live]:
    a creating call adds its artifact; deleting the repository removes it
    with everything created in it. *)
Fixpoint remaining (live : list artifact) (trace : list event)
  : list artifact :=
  match trace with
  | [] => live
  | Call_ok c :: rest =>
      match creates c, deletes c with
      | Some a, _ => remaining (live ++ [a]) rest
      | None, Some _ => remaining [] rest
      | None, None => remaining live rest
      end
  | _ :: rest => remaining live rest
  end.

(** The states of the workflow state machine. *)
Inductive state :=
| Idle
| Provisioning
| Waiting
| Finalizing
| CleaningUp
| Succeeded
| Failed.

Definition state_eqb (a b : state) : bool :=
  match a, b with
  | Idle, Idle | Provisioning, Provisioning | Waiting, Waiting
  | Finalizing, Finalizing | CleaningUp, CleaningUp
  | Succeeded, Succeeded | Failed, Failed => true
  | _, _ => false
  end.

(** The state in which an event takes place. *)
Definition state_of (e : event) : state :=
  match e with
  | Sleep _ => Waiting
  | Call_ok c | Call_raised c =>
      match c with
      | create_repo | create_issue | get_branch | create_git_ref
      | create_file | create_pull | get_repo => Provisioning
      | issue_edit_closed | pr_merge | issue_create_comment => Finalizing
      | repo_delete => CleaningUp
      end
  end.

(** Consecutive events of one state are one visit of that state. *)
Fixpoint visits (prev : state) (trace : list event) : list state :=
  match trace with
  | [] => []
  | e :: rest =>
      if state_eqb (state_of e) prev
      then visits prev rest
      else state_of e :: visits (state_of e) rest
  end.

(** The state sequence of a run that returned [result]. *)
Definition state_sequence (trace : list event) (result : bool)
  : list state :=
  Idle :: visits Idle trace ++ [if result then Succeeded else Failed].

(** ** Notions used to state the properties of the progress model *)

(** Thresholds strictly increase along the tiers. *)
Definition strictly_increasing (tiers : Dict.t Z) : Prop :=
  Sorted (fun a b => snd a < snd b) tiers.

(** [tier] labels the greatest threshold that [reading] reaches. *)
Definition greatest_at_most (tiers : Dict.t Z) (reading : Z) (tier : string)
  : Prop :=
  exists requirement,
    In (tier, requirement) tiers /\ requirement <= reading /\
    forall tier' requirement',
      In (tier', requirement') tiers -> requirement' <= reading ->
      requirement' <= requirement.

(** [next] describes the first tier, in the order of [tiers], whose
    threshold [reading] has not reached. *)
Definition first_above (tiers : Dict.t Z) (reading : Z) (next : Next.t)
  : Prop :=
  exists before after,
    tiers = before ++ (Next.tier next, Next.count next) :: after /\
    (forall tier requirement,
        In (tier, requirement) before -> requirement <= reading) /\
    reading < Next.count next /\
    Next.needed next = Next.count next - reading.

(** The tiers of the end-to-end example (those of Pull Shark with the
    thresholds 1, 16, 128, 1024). *)
Definition example_badge : Badge.info :=
  Badge.Build "Opened a pull request that has been merged"
    [("Default", 1); ("Bronze", 16); ("Silver", 128); ("Gold", 1024)]
    "count_merged_prs".

(** [tier] is a tier of greatest threshold. *)
Definition is_highest (tiers : Dict.t Z) (tier : string) : Prop :=
  exists requirement,
    In (tier, requirement) tiers /\
    forall tier' requirement',
      In (tier', requirement') tiers -> requirement' <= requirement.

(** The highest tier is achieved and nothing is left to reach. *)
Definition max_achieved (e : Progress.entry) : Prop :=
  (exists tier,
      Progress.achieved_tier e = Some tier /\
      is_highest (Progress.tiers e) tier) /\
  Progress.next_requirement e = None.

(** A next tier is present, and its threshold is beyond the reading. *)
Definition next_ahead (e : Progress.entry) : Prop :=
  exists next,
    Progress.next_requirement e = Some next /\
    Progress.current e < Next.count next.

Definition exactly_one (A B : Prop) : Prop := (A /\ ~ B) \/ (~ A /\ B).

Definition both_none (e : Progress.entry) : Prop :=
  Progress.achieved_tier e = None /\ Progress.next_requirement e = None.

(** A service on which every query raises. *)
Definition unreachable : External :=
  {| search_issues := None; get_repos := None |}.

(** Every check runs against the unreachable service and returns. *)
Definition nothing_observed : BadgeTracker.Environment :=
  fun _ => BadgeTracker.Build_Observation unreachable None.

(** As [env], except that the check of badge [A] meets [obs]. *)
Definition with_observation (env : BadgeTracker.Environment) (A : string)
    (obs : BadgeTracker.Observation) : BadgeTracker.Environment :=
  fun badge_name => if String.eqb badge_name A then obs else env badge_name.

(** The check of Quickdraw raises an exception that leaves the method. *)
Definition quickdraw_check_raises : BadgeTracker.Environment :=
  with_observation nothing_observed "Quickdraw"
    (BadgeTracker.Build_Observation unreachable (Some "Broken pipe")).

(** What the structure of the catalogue promises of a badge: at least one
    tier, thresholds that strictly increase, and a first threshold of at
    least one. *)
Definition well_formed (badge_info : Badge.info) : Prop :=
  strictly_increasing (Badge.tiers badge_info) /\
  exists tier requirement rest,
    Badge.tiers badge_info = (tier, requirement) :: rest /\ 1 <= requirement.

(** The check methods whose metric the service does not expose. *)
Definition unobservable : list string :=
  [ "check_quickdraw"; "count_coauthored_commits";
    "count_discussion_answers"; "check_yolo_merges"; "check_sponsorships" ].

(** Iterating the sequence ends with an exception. *)
Fixpoint breaks {A} (p : paged A) : bool :=
  match p with
  | Stop => false
  | Broken => true
  | Yield _ rest => breaks rest
  end.

(** The loop over the pull requests ends with an exception: fetching
    raises, or reading [pr.repository] does. *)
Fixpoint breaks_on_repository (p : paged PullRequest) : bool :=
  match p with
  | Stop => false
  | Broken => true
  | Yield pr rest =>
      match repository pr with
      | RepositoryError => true
      | _ => breaks_on_repository rest
      end
  end.

(** A query of the named check method raises (and the method catches it). *)
Definition query_failed (ext : External) (method_name : string) : bool :=
  if String.eqb method_name "count_merged_prs" then
    match search_issues ext with
    | None => true
    | Some prs => match totalCount prs with None => true | Some _ => false end
    end
  else if String.eqb method_name "count_repos_with_merged_prs" then
    match search_issues ext with
    | None => true
    | Some prs => breaks_on_repository (slice 100 (results prs))
    end
  else if String.eqb method_name "count_max_stars" then
    match get_repos ext with
    | None => true
    | Some repos => breaks repos
    end
  else false.

(** The reading of the named check method is unknown: the metric cannot be
    observed, or observing it failed. *)
Definition unknown_reading (ext : External) (method_name : string) : bool :=
  str_in method_name unobservable || query_failed ext method_name.

(** The elements a loop over the sequence gets before the sequence stops
    or raises. *)
Fixpoint yielded {A} (p : paged A) : list A :=
  match p with
  | Stop | Broken => []
  | Yield a rest => a :: yielded rest
  end.

(** The repository names the loop of [count_repos_with_merged_prs] reads
    before it ends or raises. *)
Fixpoint names_read (p : paged PullRequest) : list string :=
  match p with
  | Stop | Broken => []
  | Yield pr rest =>
      match repository pr with
      | NoRepository => names_read rest
      | Repository full_name => full_name :: names_read rest
      | RepositoryError => []
      end
  end.

(** The star counts of the public repositories among [repos]. *)
Definition public_stars (repos : list Repo) : list Z :=
  map stargazers_count (filter (fun repo => negb (private repo)) repos).

(** The sequence cut where iterating it raises. *)
Fixpoint cut {A} (p : paged A) : paged A :=
  match p with
  | Stop | Broken => Stop
  | Yield a rest => Yield a (cut rest)
  end.

Fixpoint cut_on_repository (p : paged PullRequest) : paged PullRequest :=
  match p with
  | Stop | Broken => Stop
  | Yield pr rest =>
      match repository pr with
      | RepositoryError => Stop
      | _ => Yield pr (cut_on_repository rest)
      end
  end.

(** A service on which no query raises and which holds what the queries
    on [ext] got to see: nothing where a query raised at once, and the
    elements before the failure where an iteration raised. *)
Definition as_observed (ext : External) : External :=
  {| search_issues :=
       Some
         match search_issues ext with
         | Some prs =>
             {| totalCount :=
                  Some match totalCount prs with Some n => n | None => 0 end;
                results := cut_on_repository (results prs) |}
         | None => {| totalCount := Some 0; results := Stop |}
         end;
     get_repos :=
       Some match get_repos ext with Some repos => cut repos | None => Stop end
  |}.

(** No query on [ext] raises. *)
Definition raises_nowhere (ext : External) : Prop :=
  exists prs n repos,
    search_issues ext = Some prs /\ totalCount prs = Some n /\
    breaks_on_repository (results prs) = false /\
    get_repos ext = Some repos /\ breaks repos = false.

(** A service that reports five merged pull requests, yields two of them
    (both of one repository) and then raises, and yields one public
    repository with seven stars before it raises. *)
Definition partly_observed : External :=
  {| search_issues :=
       Some
         {| totalCount := Some 5;
            results :=
              Yield {| repository := Repository "octo/widgets" |}
                (Yield {| repository := Repository "octo/widgets" |} Broken)
         |};
     get_repos :=
       Some (Yield {| private := false; stargazers_count := 7 |} Broken) |}.

(** The search reports a total of -3 and lists nothing; listing the
    repositories yields nothing. *)
Definition negative_total : External :=
  {| search_issues := Some {| totalCount := Some (-3); results := Stop |};
     get_repos := Some Stop |}.

(** Listing the repositories yields a public one with twenty stars, then
    raises; the other queries raise at once. *)
Definition stars_partly_observed : BadgeTracker.Environment :=
  fun _ =>
    BadgeTracker.Build_Observation
      {| search_issues := None;
         get_repos :=
           Some (Yield {| private := false; stargazers_count := 20 |} Broken)
      |}
      None.

(** ** Notions used to state the properties of the earning plan *)

Inductive bucket :=
| Immediate
| Quick
| ShortTerm
| LongTerm
| Completed.

Definition bucket_eqb (a b : bucket) : bool :=
  match a, b with
  | Immediate, Immediate | Quick, Quick | ShortTerm, ShortTerm
  | LongTerm, LongTerm | Completed, Completed => true
  | _, _ => false
  end.

(** The list a plan keeps for a bucket. *)
Definition items (plan : Plan.t) (b : bucket) : list Item.t :=
  match b with
  | Immediate => Plan.immediate plan
  | Quick => Plan.quick plan
  | ShortTerm => Plan.short_term plan
  | LongTerm => Plan.long_term plan
  | Completed => Plan.completed plan
  end.

(** The badge names of a bucket, in the order the bucket presents them. *)
Definition bucket_names (plan : Plan.t) (b : bucket) : list string :=
  map Item.name (items plan b).

(** The lookup from badge name to the bucket of a badge that is not
    achieved, as the chain of membership tests in [get_earning_plan] has
    it. *)
Definition capability (badge_name : string) : bucket :=
  if str_in badge_name ["Quickdraw"; "YOLO"] then Immediate
  else if str_in badge_name ["Public Sponsor"] then Quick
  else if str_in badge_name
            ["Heart On Your Sleeve"; "Open Sourcerer"; "Pair Extraordinaire"]
  then ShortTerm
  else LongTerm.

(** The bucket of a badge of the progress dictionary. *)
Definition bucket_of (progress : Dict.t Progress.entry) (badge_name : string)
  : option bucket :=
  match Dict.get progress badge_name with
  | None => None
  | Some badge_info =>
      Some (if truthy (Progress.achieved_tier badge_info)
            then Completed
            else capability badge_name)
  end.

Definition in_bucket (progress : Dict.t Progress.entry) (b : bucket)
    (badge_name : string) : bool :=
  match bucket_of progress badge_name with
  | Some b' => bucket_eqb b b'
  | None => false
  end.

(** In how many places of the plan a badge stands. *)
Definition occurrences (plan : Plan.t) (badge_name : string) : nat :=
  fold_right Nat.add 0%nat
    (map (fun b => count_occ string_dec (bucket_names plan b) badge_name)
       [Immediate; Quick; ShortTerm; LongTerm; Completed]).

(** ** Services used to state the properties of the workflows *)

Definition call_eqb (a b : call) : bool :=
  match a, b with
  | create_repo, create_repo | create_issue, create_issue
  | issue_edit_closed, issue_edit_closed | repo_delete, repo_delete
  | get_branch, get_branch | create_git_ref, create_git_ref
  | create_file, create_file | create_pull, create_pull
  | pr_merge, pr_merge | get_repo, get_repo
  | issue_create_comment, issue_create_comment => true
  | _, _ => false
  end.

(** No call raises. *)
Definition all_succeed : Oracle := fun _ _ => false.

(** Call [c] raises whenever it is made; every other call returns. *)
Definition fails_at (c : call) : Oracle := fun _ c' => call_eqb c' c.

(** Call [c] raises the first time it is made and returns afterwards;
    every other call returns. *)
Definition fails_once_at (c : call) : Oracle :=
  fun history c' =>
    call_eqb c' c
    && negb (existsb
               (fun e =>
                  match e with Call_raised c'' => call_eqb c'' c | _ => false end)
               history).

(** The events of a run and what it returned. *)
Definition events {A} (r : list event * option A) : list event := fst r.
Definition returned {A} (r : list event * option A) : option A := snd r.

(** The state sequence of a run; a run that does not return [True] ends
    in [Failed]. *)
Definition run_states (r : list event * option bool) : list state :=
  state_sequence (events r)
    match returned r with Some true => true | _ => false end.

(** ** badge_tracker.py: the summary command and the table of the report *)

Module Summary.

(** [achieved = 0; for ... in progress.items(): if info["achieved_tier"]:
    achieved += 1] (the same count as [earned_count] in
    [verify_badge_progress]) *)
Definition earned_count (progress : Dict.t Progress.entry) : Z :=
  fold_left
    (fun achieved '(_, info) =>
       if truthy (Progress.achieved_tier info) then achieved + 1 else achieved)
    progress 0.

(** [len(progress)] *)
Definition total_count (progress : Dict.t Progress.entry) : Z :=
  Z.of_nat (List.length progress).

(** One element of [next_targets]: badge, needed, tier. *)
Definition target : Type := string * Z * string.

Definition needed_of (x : target) : Z := snd (fst x).

(** The loop that collects [next_targets]: an entry counts when it has a
    next requirement and no error text (an empty text is no text). *)
Definition next_targets (progress : Dict.t Progress.entry) : list target :=
  fold_left
    (fun next_targets '(badge_name, info) =>
       match Progress.next_requirement info with
       | Some next =>
           if negb (truthy (Progress.error info))
           then next_targets ++ [(badge_name, Next.needed next, Next.tier next)]
           else next_targets
       | None => next_targets
       end)
    progress [].

(** [next_targets.sort(key=lambda x: x[1])]: a stable sort on needed. *)
Fixpoint insert_target (x : target) (l : list target) : list target :=
  match l with
  | [] => [x]
  | y :: l' =>
      if needed_of x <=? needed_of y then x :: y :: l'
      else y :: insert_target x l'
  end.

Definition sort_targets (l : list target) : list target :=
  fold_right insert_target [] l.

(** The targets the summary prints: [next_targets[:3]] after the sort. *)
Definition easiest_targets (progress : Dict.t Progress.entry) : list target :=
  firstn 3 (sort_targets (next_targets progress)).

End Summary.

Module Report.

(** [str(n)] for an integer *)
Definition str_of_int (n : Z) : string :=
  NilZero.string_of_int (Z.to_int n).

(** [s[:n]]; strings are sequences of bytes here, which is what Python
    slices on the ASCII text of badge names, tier labels and numbers. *)
Definition prefix (n : nat) (s : string) : string := substring 0 n s.

(** One row of [table_data]. *)
Record row := Build {
  status : string;
  badge : string;
  current : Z;
  tier : string;
  next_goal : string
}.

(** The body of the loop that fills [table_data]. *)
Definition table_row (badge_name : string) (info : Progress.entry) : row :=
  let tier :=
    if truthy (Progress.achieved_tier info)
    then match Progress.achieved_tier info with Some t => t | None => "None" end
    else "None" in
  let next_req :=
    match Progress.next_requirement info with
    | Some next =>
        (Next.tier next ++ " (" ++ str_of_int (Next.needed next)
           ++ " more)")%string
    | None => "Max achieved!"
    end in
  let status :=
    if truthy (Progress.achieved_tier info) then
      match Progress.achieved_tier info with
      | Some "Gold" => "🥇"
      | Some "Silver" => "🥈"
      | Some "Bronze" => "🥉"
      | _ => "✅"
      end
    else "❌" in
  Build status (prefix 20 badge_name) (Progress.current info) tier
    (prefix 25 next_req).

Definition table_data (progress : Dict.t Progress.entry) : list row :=
  fold_left
    (fun table_data '(badge_name, info) =>
       table_data ++ [table_row badge_name info])
    progress [].

End Report.

(** ** badge_orchestrator.py: running the plan *)

Module Orchestration.

Import Run.
Local Open Scope exec_scope.

(** A method call from inside a method: the callee has local variables of
    its own, and the caller's are as before when it returns. *)
Definition invoke {A} (m : exec A) : exec A :=
  fun o s =>
    match m o (Build (trace s) false) with
    | (s', r) => (Build (trace s') (repo_bound s), r)
    end.

(** The loop [for badge in plan["immediate"]] with [earned_badges] as it
    stands.  A badge that is neither Quickdraw nor YOLO is skipped by
    [continue], which also skips the sleep. *)
Fixpoint execute_loop (immediate : list Item.t) (earned_badges : list string)
  : exec (list string) :=
  match immediate with
  | [] => ret earned_badges
  | badge :: rest =>
      let badge_name := Item.name badge in
      if String.eqb badge_name "Quickdraw" then
        earned_badges' <-
          try_except
            (success <- invoke BadgeOrchestrator._earn_quickdraw_badge ;;
             ret (if success : bool
                  then earned_badges ++ [badge_name] else earned_badges))
            (fun _ => ret earned_badges) ;;
        sleep 2 ;;
        execute_loop rest earned_badges'
      else if String.eqb badge_name "YOLO" then
        earned_badges' <-
          try_except
            (success <- invoke BadgeOrchestrator._earn_yolo_badge ;;
             ret (if success : bool
                  then earned_badges ++ [badge_name] else earned_badges))
            (fun _ => ret earned_badges) ;;
        sleep 2 ;;
        execute_loop rest earned_badges'
      else execute_loop rest earned_badges
  end.

Definition execute_immediate_badges (plan : Plan.t) : exec (list string) :=
  execute_loop (Plan.immediate plan) [].

(** [verify_badge_progress]: wait, then read the progress anew. *)
Definition verify_badge_progress (env : BadgeTracker.Environment)
  : exec (Dict.t Progress.entry) :=
  sleep 5 ;;
  ret (BadgeTracker.get_badge_progress env).

(** What the command [earn_all] does after its plan is made, without
    what it prints: with [execute] the immediate badges are attempted when
    there are any; with [verify] the progress is read again from the
    service as [env_after] has it.  It returns the badges earned and the
    progress read again, where it got that far. *)
Definition earn_all_body (execute verify : bool)
    (env env_after : BadgeTracker.Environment)
  : exec (list string * option (Dict.t Progress.entry)) :=
  let plan := BadgeOrchestrator.get_earning_plan env in
  earned <-
    match Plan.immediate plan with
    | [] => ret []
    | _ :: _ => if execute then execute_immediate_badges plan else ret []
    end ;;
  final_progress <-
    (if verify
     then progress <- verify_badge_progress env_after ;; ret (Some progress)
     else ret None) ;;
  ret (earned, final_progress).

(** What the command [earn_all] does, in order: the read of
    [orchestrator.user.login], which asks the service for the user; a call
    of [tracker.get_badge_progress()], which reads the tracker's own
    [user.login] and then queries the service for each badge; an event of
    a workflow, or a sleep. *)
Inductive step :=
| User_login
| Get_badge_progress
| Workflow (e : event).

(** The command [earn_all].  [login] and [tracker_login] are what the
    reads of [orchestrator.user.login] and of the tracker's [user.login]
    give, [None] when the request for the user raises: both reads stand
    outside any [try], so the exception ends the command.  The plan is
    made from the service as [env] has it.  A login once read is kept, so
    the [get_badge_progress] of [verify] does not ask for it again.  The
    result is [None] when an exception left the command. *)
Definition earn_all (execute verify : bool)
    (login tracker_login : option string)
    (env env_after : BadgeTracker.Environment) (o : Oracle)
  : list step * option (list string * option (Dict.t Progress.entry)) :=
  match login with
  | None => ([User_login], None)
  | Some _ =>
      match tracker_login with
      | None => ([User_login; Get_badge_progress], None)
      | Some _ =>
          match run (earn_all_body execute verify env env_after) o with
          | (t, Some (earned, final_progress)) =>
              (User_login :: Get_badge_progress :: map Workflow t
               ++ (if verify then [Get_badge_progress] else []),
               Some (earned, final_progress))
          | (t, None) =>
              (User_login :: Get_badge_progress :: map Workflow t, None)
          end
      end
  end.

End Orchestration.

(** ** quickdraw_automation.py: choosing a repository *)

(** A repository of the user as [find_own_repositories] reads it. *)
Module Owned.
Record repo := Build {
  full_name : string;
  description : option string;
  html_url : string;
  has_issues : bool;
  private : bool
}.
End Owned.

(** One dictionary of the list [find_own_repositories] returns. *)
Module Listing.
Record t := Build {
  name : string;
  description : string;
  url : string;
  issues_enabled : bool
}.
End Listing.

Module QuickdrawCli.

Import Run.
Local Open Scope exec_scope.

(** The loop [for repo in user_repos: if not repo.private:
    repos.append({...})]; an exception leaves it with the list as it is. *)
Fixpoint list_repos (user_repos : paged Owned.repo) (repos : list Listing.t)
  : list Listing.t :=
  match user_repos with
  | Stop | Broken => repos
  | Yield repo rest =>
      if negb (Owned.private repo) then
        list_repos rest
          (repos ++
             [Listing.Build
                (Owned.full_name repo)
                (match Owned.description repo with
                 | Some d => if String.eqb d "" then "No description" else d
                 | None => "No description"
                 end)
                (Owned.html_url repo)
                (Owned.has_issues repo)])
      else list_repos rest repos
  end.

(** [find_own_repositories]; [None] is a [get_repos] that raises. *)
Definition find_own_repositories (user_repos : option (paged Owned.repo))
  : list Listing.t :=
  match user_repos with
  | Some user_repos => list_repos user_repos []
  | None => []
  end.

(** What the command [quick_issue] does, in order: the call of
    [find_own_repositories()], which asks the service for the user's
    repositories; the prompt for a number; the call of
    [create_and_close_issue_quickly(repo, delay)]; an event of that
    routine. *)
Inductive step :=
| Find_own_repositories
| Prompt
| Create_and_close_issue_quickly (repo_name : string) (delay_seconds : Z)
| Routine (e : event).

(** The last line of [quick_issue], after the steps [before]. *)
Definition go_on (clock : Clock) (repo_name : string) (delay : Z)
    (before : list step) (o : Oracle) : list step * option unit :=
  match run (QuickdrawAutomation.create_and_close_issue_quickly clock
               (Some delay)) o with
  | (t, Some _) =>
      (before ++ Create_and_close_issue_quickly repo_name delay
              :: map Routine t, Some tt)
  | (t, None) =>
      (before ++ Create_and_close_issue_quickly repo_name delay
              :: map Routine t, None)
  end.

(** The command [quick_issue].  [repo] and [delay] are its options;
    [user_repos] is what the service answers when the repositories are
    listed, [choice] the number entered at the prompt, [None] when the
    prompt is aborted, which ends the command with [click.Abort].  The
    result is [None] when an exception left the command. *)
Definition quick_issue (clock : Clock) (repo : option string) (delay : Z)
    (user_repos : option (paged Owned.repo)) (choice : option Z)
    (o : Oracle) : list step * option unit :=
  match (if truthy repo then repo else None) with
  | Some repo => go_on clock repo delay [] o
  | None =>
      let repos := find_own_repositories user_repos in
      match repos with
      | [] => ([Find_own_repositories], Some tt)
      | _ :: _ =>
          match choice with
          | None => ([Find_own_repositories; Prompt], None)
          | Some choice =>
              if (1 <=? choice) && (choice <=? Z.of_nat (List.length repos))
              then
                match nth_error repos (Z.to_nat (choice - 1)) with
                | Some r =>
                    go_on clock (Listing.name r) delay
                      [Find_own_repositories; Prompt] o
                | None => ([Find_own_repositories; Prompt], None)
                end
              else ([Find_own_repositories; Prompt], Some tt)
          end
      end
  end.

End QuickdrawCli.

(** ** coauthor_helper.py *)

(** Regular expressions over characters, matched by derivatives. *)
Module Re.

Inductive t :=
| Empty
| Eps
| Class (p : Ascii.ascii -> bool)
| Seq (a b : t)
| Alt (a b : t)
| Star (a : t).

Fixpoint nullable (r : t) : bool :=
  match r with
  | Empty => false
  | Eps => true
  | Class _ => false
  | Seq a b => nullable a && nullable b
  | Alt a b => nullable a || nullable b
  | Star _ => true
  end.

Fixpoint deriv (c : Ascii.ascii) (r : t) : t :=
  match r with
  | Empty => Empty
  | Eps => Empty
  | Class p => if p c then Eps else Empty
  | Seq a b =>
      if nullable a
      then Alt (Seq (deriv c a) b) (deriv c b)
      else Seq (deriv c a) b
  | Alt a b => Alt (deriv c a) (deriv c b)
  | Star a => Seq (deriv c a) (Star a)
  end.

(** The whole of [s] is a word of [r]. *)
Fixpoint full_match (r : t) (s : list Ascii.ascii) : bool :=
  match s with
  | [] => nullable r
  | c :: s' => full_match (deriv c r) s'
  end.

(** [a+] *)
Definition Plus (a : t) : t := Seq a (Star a).

(** [re.match("^r$", s) is not None]: the pattern ends at the end of the
    string or just before a newline that ends the string. *)
Definition match_anchored (r : t) (s : list Ascii.ascii) : bool :=
  full_match r s
  || match rev s with
     | c :: before =>
         Ascii.eqb c (Ascii.ascii_of_nat 10) && full_match r (rev before)
     | [] => false
     end.

End Re.

Module CoAuthorHelper.

Definition between (lo hi c : Ascii.ascii) : bool :=
  (Ascii.N_of_ascii lo <=? Ascii.N_of_ascii c)%N
  && (Ascii.N_of_ascii c <=? Ascii.N_of_ascii hi)%N.

(** [[a-zA-Z]] *)
Definition letter (c : Ascii.ascii) : bool :=
  between "a"%char "z"%char c || between "A"%char "Z"%char c.

(** [[a-zA-Z0-9._%+-]] *)
Definition local_char (c : Ascii.ascii) : bool :=
  letter c || between "0"%char "9"%char c
  || Ascii.eqb c "."%char || Ascii.eqb c "_"%char || Ascii.eqb c "%"%char
  || Ascii.eqb c "+"%char || Ascii.eqb c "-"%char.

(** [[a-zA-Z0-9.-]] *)
Definition domain_char (c : Ascii.ascii) : bool :=
  letter c || between "0"%char "9"%char c || Ascii.eqb c "."%char || Ascii.eqb c "-"%char.

(** [[a-zA-Z0-9._%+-]+@[a-zA-Z0-9.-]+\.[a-zA-Z]{2,}], between [^] and
    [$]. *)
Definition pattern : Re.t :=
  Re.Seq (Re.Plus (Re.Class local_char))
    (Re.Seq (Re.Class (Ascii.eqb "@"%char))
       (Re.Seq (Re.Plus (Re.Class domain_char))
          (Re.Seq (Re.Class (Ascii.eqb "."%char))
             (Re.Seq (Re.Class letter)
                (Re.Seq (Re.Class letter) (Re.Star (Re.Class letter))))))).

Definition validate_email (email : string) : bool :=
  Re.match_anchored pattern (list_ascii_of_string email).

(** What a method returns, or the [ValueError] it raises. *)
Inductive result (A : Type) : Type :=
| Ok (a : A)
| ValueError (message : string).
Arguments Ok {A} a.
Arguments ValueError {A} message.

Definition generate_coauthor_line (name email : string) : result string :=
  if negb (validate_email email)
  then ValueError ("Invalid email format: " ++ email)%string
  else Ok ("Co-authored-by: " ++ name ++ " <" ++ email ++ ">")%string.

(** One dictionary of [coauthors]. *)
Record coauthor := { name : string; email : string }.

(** The loop [for author in coauthors], with [message_parts] as it
    stands; the first invalid email ends it with the error. *)
Fixpoint add_coauthors (coauthors : list coauthor) (message_parts : list string)
  : result (list string) :=
  match coauthors with
  | [] => Ok message_parts
  | author :: rest =>
      match generate_coauthor_line (name author) (email author) with
      | Ok coauthor_line => add_coauthors rest (message_parts ++ [coauthor_line])
      | ValueError message => ValueError message
      end
  end.

(** [create_commit_message(title, description="", coauthors=None)];
    [None] is an argument left out or passed as [None]. *)
Definition create_commit_message (title : string) (description : option string)
    (coauthors : option (list coauthor)) : result string :=
  let message_parts := [title] in
  let message_parts :=
    match description with
    | Some d =>
        if negb (String.eqb d "") then message_parts ++ [""; d]
        else message_parts
    | None => message_parts
    end in
  let message_parts :=
    match coauthors with
    | Some (author :: rest) =>
        add_coauthors (author :: rest) (message_parts ++ [""])
    | _ => Ok message_parts
    end in
  match message_parts with
  | Ok parts => Ok (String.concat (String (Ascii.ascii_of_nat 10) "") parts)
  | ValueError message => ValueError message
  end.

(** [find_github_collaborators] *)
Definition find_github_collaborators (username : string) : list string :=
  [ (username ++ "-bot")%string; (username ++ "-collaborator")%string;
    "github-actions[bot]"; "dependabot[bot]"; "renovate[bot]" ].

(** [get_github_noreply_email(username, user_id=None)] *)
Definition get_github_noreply_email (username : string)
    (user_id : option string) : string :=
  match user_id with
  | Some id =>
      if negb (String.eqb id "")
      then (id ++ "+" ++ username ++ "@users.noreply.github.com")%string
      else (username ++ "@users.noreply.github.com")%string
  | None => (username ++ "@users.noreply.github.com")%string
  end.

(** The command [create_message], without what it prints: [None] when it
    returns after the message about unequal numbers of names and emails,
    else the message it prints or the [ValueError] that leaves it.  The
    call [helper.validate_email(e)] in its loop returns a truth value that
    is not looked at, and raises nothing. *)
Definition create_message (title : string) (description : option string)
    (names emails : list string) : option (result string) :=
  if negb (Nat.eqb (List.length names) (List.length emails)) then None
  else
    let coauthors :=
      fold_left
        (fun coauthors '(n, e) =>
           let _ := validate_email e in
           coauthors ++ [{| name := n; email := e |}])
        (combine names emails) [] in
    Some (create_commit_message title description (Some coauthors)).

End CoAuthorHelper.

(** ** Notions used to state the further properties *)

(** The truth value of the achieved tier, as a count. *)
Definition earned (info : Progress.entry) : Z :=
  if truthy (Progress.achieved_tier info) then 1 else 0.

(** The entry the tracker writes for a badge of the catalogue. *)
Definition tracker_entry (env : BadgeTracker.Environment) (badge_name : string)
    (badge_info : Badge.info) : Progress.entry :=
  BadgeTracker.badge_entry badge_info
    (BadgeTracker.run_check (env badge_name) (Badge.check_method badge_info)).

(** How often a run calls [c], whether the call returns or raises. *)
Fixpoint attempts (c : call) (trace : list event) : nat :=
  match trace with
  | [] => 0
  | Call_ok c' :: rest | Call_raised c' :: rest =>
      (if call_eqb c' c then 1 else 0) + attempts c rest
  | Sleep _ :: rest => attempts c rest
  end.

(** How often a run sleeps for [seconds]. *)
Fixpoint sleeps (seconds : Z) (trace : list event) : nat :=
  match trace with
  | [] => 0
  | Sleep s :: rest => (if s =? seconds then 1 else 0) + sleeps seconds rest
  | _ :: rest => sleeps seconds rest
  end.

(** Some call of the run raised. *)
Definition raised_somewhere (trace : list event) : bool :=
  existsb (fun e => match e with Call_raised _ => true | _ => false end) trace.

(** The service as it answers after the events [history]. *)
Definition shift (o : Oracle) (history : list event) : Oracle :=
  fun history' c => o (history ++ history') c.

(** The badges of the immediate list that have a workflow. *)
Definition automated (immediate : list Item.t) : list string :=
  filter (fun n => String.eqb n "Quickdraw" || String.eqb n "YOLO")
    (map Item.name immediate).

(** The delay the fast-close routine waits for: 30 seconds when none is
    given. *)
Definition delay_of (delay_seconds : option Z) : Z :=
  match delay_seconds with Some d => d | None => 30 end.

(** A run of the stand-alone fast-close routine. *)
Definition routine_run (clock : Clock) (delay_seconds : option Z)
    (o : Oracle) : list event * option bool :=
  Run.run
    (QuickdrawAutomation.create_and_close_issue_quickly clock delay_seconds)
    o.

(** The events of the workflows and the sleeps among the steps of
    [earn_all]. *)
Fixpoint workflow_events (steps : list Orchestration.step) : list event :=
  match steps with
  | [] => []
  | Orchestration.Workflow e :: rest => e :: workflow_events rest
  | _ :: rest => workflow_events rest
  end.

(** The events of the fast-close routine among the steps of
    [quick_issue]. *)
Fixpoint routine_events (steps : list QuickdrawCli.step) : list event :=
  match steps with
  | [] => []
  | QuickdrawCli.Routine e :: rest => e :: routine_events rest
  | _ :: rest => routine_events rest
  end.

(** The dictionary [find_own_repositories] makes of a repository. *)
Definition listing_of (repo : Owned.repo) : Listing.t :=
  Listing.Build
    (Owned.full_name repo)
    (match Owned.description repo with
     | Some d => if String.eqb d "" then "No description" else d
     | None => "No description"
     end)
    (Owned.html_url repo)
    (Owned.has_issues repo).

(** The last character of a string. *)
Fixpoint last_char (s : string) : option Ascii.ascii :=
  match s with
  | EmptyString => None
  | String c EmptyString => Some c
  | String _ s' => last_char s'
  end.

(** The words of a regular expression. *)
Inductive lang : Re.t -> list ascii -> Prop :=
| lang_eps : lang Re.Eps []
| lang_class p c : p c = true -> lang (Re.Class p) [c]
| lang_seq a b s1 s2 :
    lang a s1 -> lang b s2 -> lang (Re.Seq a b) (s1 ++ s2)
| lang_alt_l a b s : lang a s -> lang (Re.Alt a b) s
| lang_alt_r a b s : lang b s -> lang (Re.Alt a b) s
| lang_star_nil a : lang (Re.Star a) []
| lang_star_more a s1 s2 :
    lang a s1 -> lang (Re.Star a) s2 -> lang (Re.Star a) (s1 ++ s2).

(** The shape of an address: a local part, the at sign, a domain, a dot
    and a top-level part of two letters or more. *)
Definition address (s : list ascii) : Prop :=
  exists l d t,
    s = l ++ "@"%char :: d ++ "."%char :: t /\
    l <> [] /\ forallb CoAuthorHelper.local_char l = true /\
    d <> [] /\ forallb CoAuthorHelper.domain_char d = true /\
    (2 <= List.length t)%nat /\ forallb CoAuthorHelper.letter t = true.

(** The trailer line of a co-author. *)
Definition trailer (author : CoAuthorHelper.coauthor) : string :=
  ("Co-authored-by: " ++ CoAuthorHelper.name author ++ " <"
   ++ CoAuthorHelper.email author ++ ">")%string.

(** The newline that joins the parts of a message. *)
Definition newline : string := String (ascii_of_nat 10) "".

(** The lines of a description that is given and not empty. *)
Definition body (description : option string) : list string :=
  match description with
  | Some d => if String.eqb d "" then [] else [""; d]
  | None => []
  end.

(** The part of a no-reply address before the at sign. *)
Definition noreply_local (username : string) (user_id : option string)
  : string :=
  match user_id with
  | Some id =>
      if String.eqb id "" then username else (id ++ "+" ++ username)%string
  | None => username
  end.

(** * Properties *)

Import BadgeTracker.

(** ** The progress model *)

Section ProgressModel.

Variable reading : Z.

Lemma increasing_strongly (tiers : Dict.t Z) :
  strictly_increasing tiers ->
  StronglySorted (fun a b => snd a < snd b) tiers.
Proof.
  apply Sorted_StronglySorted. intros a b c Hab Hbc. lia.
Qed.

Lemma sorted_tiers_increasing (tiers : Dict.t Z) :
  strictly_increasing tiers -> sorted_tiers tiers = tiers.
Proof.
  unfold strictly_increasing, sorted_tiers.
  induction 1 as [|x l Hl IH Hx]; simpl; [reflexivity|].
  rewrite IH. destruct Hx as [|y l' Hxy]; simpl; [reflexivity|].
  apply Z.lt_le_incl, Z.leb_le in Hxy. now rewrite Hxy.
Qed.

Lemma scan_fold (l : list (string * Z)) (acc : option string) :
  fold_left
    (fun achieved_tier '(tier, requirement) =>
       if reading >=? requirement then Some tier else achieved_tier)
    l acc
  = match scan_achieved reading l with
    | Some tier => Some tier
    | None => acc
    end.
Proof.
  unfold scan_achieved. revert acc.
  induction l as [|[t r] l IH]; intros acc; simpl; [reflexivity|].
  rewrite IH. rewrite (IH (if reading >=? r then Some t else None)).
  destruct (fold_left _ l None); [reflexivity|].
  destruct (reading >=? r); reflexivity.
Qed.

Lemma scan_achieved_cons t r (l : list (string * Z)) :
  scan_achieved reading ((t, r) :: l)
  = match scan_achieved reading l with
    | Some tier => Some tier
    | None => if reading >=? r then Some t else None
    end.
Proof. unfold scan_achieved at 1. simpl. apply scan_fold. Qed.

Lemma scan_achieved_none (l : list (string * Z)) :
  scan_achieved reading l = None <->
  forall t r, In (t, r) l -> reading < r.
Proof.
  induction l as [|[t0 r0] l IH].
  - split; [intros _ t r []|reflexivity].
  - rewrite scan_achieved_cons. split.
    + intros H t r [E|Hin].
      * inversion E; subst. destruct (scan_achieved reading l); [discriminate|].
        destruct (Z.geb_spec reading r); [discriminate|lia].
      * destruct (scan_achieved reading l); [discriminate|].
        apply (proj1 IH eq_refl t r Hin).
    + intros H. rewrite (proj2 IH (fun t r Hin => H t r (or_intror Hin))).
      specialize (H t0 r0 (or_introl eq_refl)).
      destruct (Z.geb_spec reading r0); [lia|reflexivity].
Qed.

Lemma scan_achieved_some (l : list (string * Z)) :
  StronglySorted (fun a b => snd a < snd b) l ->
  forall t, scan_achieved reading l = Some t <-> greatest_at_most l reading t.
Proof.
  induction 1 as [|[t0 r0] l Hl IH Hx]; intros t.
  - split; [discriminate|]. intros (r & [] & _).
  - rewrite Forall_forall in Hx. rewrite scan_achieved_cons.
    destruct (scan_achieved reading l) as [t'|] eqn:E.
    + destruct (proj1 (IH t') eq_refl) as (r' & Hin' & Hle' & Hmax').
      split.
      * intros [= <-]. exists r'. repeat split; [now right|assumption|].
        intros t1 r1 [E1|Hin1] Hle1.
        -- inversion E1; subst. specialize (Hx _ Hin'). simpl in Hx. lia.
        -- eauto.
      * intros (r & [E1|Hin] & Hle & Hmax).
        -- inversion E1; subst.
           specialize (Hmax t' r' (or_intror Hin') Hle').
           specialize (Hx _ Hin'). simpl in Hx. lia.
        -- apply IH. exists r. repeat split; try assumption.
           intros t1 r1 Hin1. apply (Hmax t1). now right.
    + pose proof (proj1 (scan_achieved_none l) E) as Hnone.
      destruct (Z.geb_spec reading r0) as [Hge|Hlt].
      * split.
        -- intros [= <-]. exists r0. repeat split; [now left|assumption|].
           intros t1 r1 [E1|Hin1] Hle1.
           ++ inversion E1; lia.
           ++ specialize (Hnone _ _ Hin1). lia.
        -- intros (r & [E1|Hin] & Hle & _).
           ++ now inversion E1.
           ++ specialize (Hnone _ _ Hin). lia.
      * split; [discriminate|].
        intros (r & [E1|Hin] & Hle & _).
        -- inversion E1; subst. lia.
        -- specialize (Hnone _ _ Hin). lia.
Qed.

Lemma find_next_none (l : list (string * Z)) :
  find_next reading l = None <->
  forall t r, In (t, r) l -> r <= reading.
Proof.
  induction l as [|[t0 r0] l IH]; simpl.
  - split; [intros _ t r []|reflexivity].
  - destruct (Z.ltb_spec reading r0) as [Hlt|Hge].
    + split; [discriminate|]. intros H.
      specialize (H t0 r0 (or_introl eq_refl)). lia.
    + rewrite IH. split.
      * intros H t r [E|Hin]; [inversion E; subst; assumption|eauto].
      * intros H t r Hin. apply (H t r). now right.
Qed.

Lemma find_next_some (l : list (string * Z)) (next : Next.t) :
  find_next reading l = Some next <-> first_above l reading next.
Proof.
  induction l as [|[t0 r0] l IH]; simpl.
  - split; [discriminate|]. intros (b & a & E & _).
    destruct b; discriminate.
  - destruct (Z.ltb_spec reading r0) as [Hlt|Hge].
    + split.
      * intros [= <-]. exists [], l. simpl.
        repeat split; [intros ? ? []|assumption].
      * intros (b & a & E & Hb & Hc & Hn). destruct b as [|[t1 r1] b].
        -- simpl in E. inversion E; subst.
           destruct next as [nt nc nn]; simpl in *. now subst.
        -- simpl in E. inversion E; subst.
           specialize (Hb t1 r1 (or_introl eq_refl)). lia.
    + rewrite IH. split.
      * intros (b & a & E & Hb & Hc & Hn). exists ((t0, r0) :: b), a.
        subst l. repeat split; try assumption.
        intros t r [E1|Hin]; [inversion E1; subst; assumption|eauto].
      * intros (b & a & E & Hb & Hc & Hn). destruct b as [|[t1 r1] b].
        -- simpl in E. inversion E; subst. lia.
        -- simpl in E. inversion E; subst. exists b, a.
           repeat split; try assumption.
           intros t r Hin. apply (Hb t r). now right.
Qed.

Lemma increasing_head t0 r0 (l : list (string * Z)) :
  StronglySorted (fun a b => snd a < snd b) ((t0, r0) :: l) ->
  forall t r, In (t, r) ((t0, r0) :: l) -> r0 <= r.
Proof.
  intros H t r [E|Hin].
  - inversion E; lia.
  - apply StronglySorted_inv in H. destruct H as [_ H].
    rewrite Forall_forall in H. specialize (H _ Hin). simpl in H. lia.
Qed.

Lemma increasing_last (l : list (string * Z)) d :
  StronglySorted (fun a b => snd a < snd b) l ->
  forall t r, In (t, r) l -> r <= snd (last l d).
Proof.
  induction 1 as [|x l Hl IH Hx]; intros t r Hin; [destruct Hin|].
  destruct l as [|y l'].
  - destruct Hin as [E|[]]. subst x. simpl. lia.
  - change (last (x :: y :: l') d) with (last (y :: l') d).
    destruct Hin as [E|Hin]; [subst x|eauto].
    rewrite Forall_forall in Hx.
    specialize (Hx y (or_introl eq_refl)).
    destruct y as [ty ry]. specialize (IH ty ry (or_introl eq_refl)).
    simpl in *. lia.
Qed.

Lemma last_in {A} (x : A) (l : list A) d : In (last (x :: l) d) (x :: l).
Proof.
  revert x. induction l as [|y l IH]; intros x; [now left|].
  change (last (x :: y :: l) d) with (last (y :: l) d). right. apply IH.
Qed.

End ProgressModel.

(** C3: for tiers whose thresholds strictly increase and any reading the
    check returned, [achieved_tier] is the label of the greatest threshold
    that the reading reaches, and is [None] exactly when the reading is below
    the smallest (first) threshold; [next_requirement] is the first tier
    whose threshold exceeds the reading, with [needed] the difference, and
    is [None] exactly when the reading reaches the highest (last)
    threshold.  For the tiers Default 1, Bronze 16, Silver 128, Gold 1024
    and the reading 16 this gives Bronze and Silver, 128, 112 more. *)
Theorem C3_tiers_of_reading (badge_info : Badge.info) (reading : Z) :
  strictly_increasing (Badge.tiers badge_info) ->
  0 <= reading ->
  let e := badge_entry badge_info (Returned reading) in
  let tiers := Badge.tiers badge_info in
  (forall t,
      Progress.achieved_tier e = Some t <-> greatest_at_most tiers reading t) /\
  (forall t0 r0 rest, tiers = (t0, r0) :: rest ->
      (Progress.achieved_tier e = None <-> reading < r0)) /\
  (forall next,
      Progress.next_requirement e = Some next <->
      first_above tiers reading next) /\
  (forall d, tiers <> [] ->
      (Progress.next_requirement e = None <-> snd (last tiers d) <= reading)) /\
  (badge_info = example_badge -> reading = 16 ->
      Progress.achieved_tier e = Some "Bronze" /\
      Progress.next_requirement e = Some (Next.Build "Silver" 128 112)).
Proof.
  intros Hinc _ e tiers. subst e. simpl.
  rewrite (sorted_tiers_increasing _ Hinc). fold tiers.
  pose proof (increasing_strongly _ Hinc) as Hs. fold tiers in Hs.
  split; [|split; [|split; [|split]]].
  - apply scan_achieved_some, Hs.
  - intros t0 r0 rest E. rewrite scan_achieved_none. rewrite E in *. split.
    + intros H. apply (H t0). now left.
    + intros H t r Hin.
      pose proof (increasing_head t0 r0 rest Hs t r Hin). lia.
  - apply find_next_some.
  - intros d Hne. rewrite find_next_none. split.
    + intros H. destruct tiers as [|x l]; [congruence|].
      pose proof (last_in x l d) as Hin.
      destruct (last (x :: l) d) as [t r] eqn:E. simpl. eauto.
    + intros H t r Hin.
      pose proof (increasing_last tiers d Hs t r Hin). lia.
  - intros E1 E2. subst tiers. rewrite E1, E2. split; reflexivity.
Qed.

(** The end-to-end example: Default 1, Bronze 16, Silver 128, Gold 1024 and
    the reading 16. *)
Lemma C3_tiers_of_reading_example :
  strictly_increasing (Badge.tiers example_badge) /\
  0 <= 16 /\
  greatest_at_most (Badge.tiers example_badge) 16 "Bronze" /\
  first_above (Badge.tiers example_badge) 16 (Next.Build "Silver" 128 112) /\
  Progress.achieved_tier (badge_entry example_badge (Returned 16))
  = Some "Bronze" /\
  Progress.next_requirement (badge_entry example_badge (Returned 16))
  = Some (Next.Build "Silver" 128 112).
Proof.
  assert (Hinc : strictly_increasing (Badge.tiers example_badge)).
  { unfold strictly_increasing. simpl.
    repeat (constructor; simpl; try lia). }
  assert (Hpos : 0 <= 16) by lia.
  pose proof (C3_tiers_of_reading example_badge 16 Hinc Hpos) as H.
  simpl in H. destruct H as (Ha & _ & Hn & _ & Hex).
  destruct (Hex eq_refl eq_refl) as [Ea En].
  split; [exact Hinc|]. split; [exact Hpos|].
  split; [apply Ha; exact Ea|]. split; [apply Hn; exact En|].
  split; [exact Ea|exact En].
Defined.

(** ** The progress dictionary *)

Lemma get_badge_progress_unfold (env : Environment) :
  get_badge_progress env
  = map (fun '(badge_name, badge_info) =>
           (badge_name,
            badge_entry badge_info
              (run_check (env badge_name) (Badge.check_method badge_info))))
      badges.
Proof. reflexivity. Qed.

Lemma dict_get_map {V W} (f : string -> V -> W) (d : Dict.t V) (k : string) :
  Dict.get (map (fun '(k', v) => (k', f k' v)) d) k
  = option_map (f k) (Dict.get d k).
Proof.
  induction d as [|[k' v] d IH]; simpl; [reflexivity|].
  destruct (String.eqb_spec k k') as [->|_]; [reflexivity|exact IH].
Qed.

Lemma dict_keys_map {V W} (f : string -> V -> W) (d : Dict.t V) :
  Dict.keys (map (fun '(k', v) => (k', f k' v)) d) = Dict.keys d.
Proof.
  unfold Dict.keys. induction d as [|[k' v] d IH]; simpl; [reflexivity|].
  now rewrite IH.
Qed.

Lemma get_badge_progress_get (env : Environment) (badge_name : string) :
  Dict.get (get_badge_progress env) badge_name
  = option_map
      (fun badge_info =>
         badge_entry badge_info
           (run_check (env badge_name) (Badge.check_method badge_info)))
      (Dict.get badges badge_name).
Proof.
  rewrite get_badge_progress_unfold.
  apply (dict_get_map
           (fun n i => badge_entry i (run_check (env n) (Badge.check_method i)))).
Qed.

Lemma get_badge_progress_keys (env : Environment) :
  Dict.keys (get_badge_progress env) = Dict.keys badges.
Proof.
  rewrite get_badge_progress_unfold.
  apply (dict_keys_map
           (fun n i => badge_entry i (run_check (env n) (Badge.check_method i)))).
Qed.

Lemma dict_get_in {V} (d : Dict.t V) (k : string) (v : V) :
  Dict.get d k = Some v -> In (k, v) d.
Proof.
  induction d as [|[k' v'] d IH]; simpl; [discriminate|].
  destruct (String.eqb_spec k k') as [->|_].
  - intros [= ->]. now left.
  - intros H. right. auto.
Qed.

(** Every badge of the catalogue is well formed and names a method of the
    tracker. *)
Lemma badges_well_formed (badge_name : string) (badge_info : Badge.info) :
  Dict.get badges badge_name = Some badge_info ->
  well_formed badge_info /\
  exists method, Dict.get methods (Badge.check_method badge_info) = Some method.
Proof.
  intros H. apply dict_get_in in H.
  repeat (destruct H as [H|H];
    [inversion H; subst; split;
     [split;
      [unfold strictly_increasing; simpl;
       repeat (constructor; simpl; try lia)
      |do 3 eexists; split; [reflexivity|lia]]
     |eexists; reflexivity]|]).
  destruct H.
Qed.

Lemma run_check_returns (obs : Observation) (badge_name : string)
    (badge_info : Badge.info) :
  Dict.get badges badge_name = Some badge_info ->
  fault obs = None ->
  exists method,
    Dict.get methods (Badge.check_method badge_info) = Some method /\
    run_check obs (Badge.check_method badge_info)
    = Returned (method (service obs)).
Proof.
  intros H Hf. destruct (badges_well_formed _ _ H) as [_ [m Hm]].
  exists m. split; [exact Hm|]. unfold run_check. now rewrite Hm, Hf.
Qed.

Lemma run_check_raises (obs : Observation) (badge_name : string)
    (badge_info : Badge.info) (e : string) :
  Dict.get badges badge_name = Some badge_info ->
  fault obs = Some e ->
  run_check obs (Badge.check_method badge_info) = Raised e.
Proof.
  intros H Hf. destruct (badges_well_formed _ _ H) as [_ [m Hm]].
  unfold run_check. now rewrite Hm, Hf.
Qed.

(** The entry the [try] block writes for a well-formed badge. *)
Lemma returned_entry_shape (badge_info : Badge.info) (reading : Z) :
  well_formed badge_info ->
  let e := badge_entry badge_info (Returned reading) in
  exactly_one (max_achieved e) (next_ahead e) /\ ~ both_none e.
Proof.
  intros [Hinc (t0 & r0 & rest & Et & _)] e.
  assert (Hcur : Progress.current e = reading) by reflexivity.
  assert (Htiers : Progress.tiers e = Badge.tiers badge_info) by reflexivity.
  assert (Hach : Progress.achieved_tier e
                 = scan_achieved reading (Badge.tiers badge_info)).
  { subst e. simpl. now rewrite (sorted_tiers_increasing _ Hinc). }
  assert (Hnext : Progress.next_requirement e
                  = find_next reading (Badge.tiers badge_info)).
  { subst e. simpl. now rewrite (sorted_tiers_increasing _ Hinc). }
  pose proof (increasing_strongly _ Hinc) as Hs.
  destruct (find_next reading (Badge.tiers badge_info)) as [next|] eqn:En.
  - assert (Hahead : next_ahead e).
    { exists next. split; [exact Hnext|]. rewrite Hcur.
      apply find_next_some in En. destruct En as (_ & _ & _ & _ & Hlt & _).
      exact Hlt. }
    split.
    + right. split; [|exact Hahead]. intros [_ Hn]. congruence.
    + intros [_ Hn]. congruence.
  - pose proof (proj1 (find_next_none reading _) En) as Hall.
    destruct (scan_achieved reading (Badge.tiers badge_info)) as [t|] eqn:Ea.
    + assert (Hmax : max_achieved e).
      { split; [|exact Hnext]. exists t. split; [exact Hach|].
        apply (scan_achieved_some reading _ Hs) in Ea.
        destruct Ea as (r & Hin & Hle & Hgreatest).
        rewrite Htiers. exists r. split; [exact Hin|].
        intros t' r' Hin'. apply (Hgreatest t' r' Hin'). eauto. }
      split.
      * left. split; [exact Hmax|]. intros (n & Hn & _). congruence.
      * intros [Hn _]. congruence.
    + exfalso. pose proof (proj1 (scan_achieved_none reading _) Ea) as Hbelow.
      rewrite Et in Hall, Hbelow.
      specialize (Hall t0 r0 (or_introl eq_refl)).
      specialize (Hbelow t0 r0 (or_introl eq_refl)). lia.
Qed.

(** The entry the exception handler writes. *)
Lemma raised_entry_shape (badge_info : Badge.info) (msg : string) :
  let e := badge_entry badge_info (Raised msg) in
  both_none e /\ ~ max_achieved e /\ ~ next_ahead e /\
  Progress.current e = 0 /\ Progress.error e = Some msg.
Proof.
  simpl. repeat split.
  - intros [(t & Ht & _) _]. discriminate.
  - intros (n & Hn & _). discriminate.
Qed.

(** C4 (as the code has it): an entry written after the badge's check
    returned satisfies exactly one of "the highest tier is achieved and no
    next tier" and "a next tier whose threshold exceeds the reading", and
    never has both fields [None]; an entry written by the exception handler,
    after the check raised, has both fields [None] and satisfies neither. *)
Theorem C4_shape_of_entries (env : Environment) (badge_name : string)
    (e : Progress.entry) :
  Dict.get (get_badge_progress env) badge_name = Some e ->
  (fault (env badge_name) = None ->
   exactly_one (max_achieved e) (next_ahead e) /\ ~ both_none e) /\
  (forall msg, fault (env badge_name) = Some msg ->
   both_none e /\ ~ max_achieved e /\ ~ next_ahead e /\
   Progress.error e = Some msg).
Proof.
  rewrite get_badge_progress_get.
  destruct (Dict.get badges badge_name) as [info|] eqn:Hb; [|discriminate].
  simpl. intros [= <-]. split.
  - intros Hf. destruct (run_check_returns _ _ _ Hb Hf) as (m & _ & ->).
    apply returned_entry_shape. apply (badges_well_formed _ _ Hb).
  - intros msg Hf. rewrite (run_check_raises _ _ _ _ Hb Hf).
    pose proof (raised_entry_shape info msg) as H. simpl in H. tauto.
Qed.

(** The entry of Quickdraw when its check returns 0. *)
Lemma C4_shape_of_entries_quickdraw :
  Dict.get (get_badge_progress nothing_observed) "Quickdraw"
  = Some (Progress.Build 0 None (Some (Next.Build "Default" 1 1))
            "Closed an issue/pull request within 5 minutes of opening"
            [("Default", 1)] None) /\
  exactly_one
    (max_achieved (Progress.Build 0 None (Some (Next.Build "Default" 1 1))
            "Closed an issue/pull request within 5 minutes of opening"
            [("Default", 1)] None))
    (next_ahead (Progress.Build 0 None (Some (Next.Build "Default" 1 1))
            "Closed an issue/pull request within 5 minutes of opening"
            [("Default", 1)] None)).
Proof.
  split; [reflexivity|].
  apply (C4_shape_of_entries nothing_observed "Quickdraw" _ eq_refl).
  reflexivity.
Defined.

(** C4 fails as stated: when the check of Quickdraw raises, the entry the
    handler writes has no achieved tier and no next tier. *)
Lemma C4_both_none_after_raise :
  Dict.get (get_badge_progress quickdraw_check_raises) "Quickdraw"
  = Some (Progress.Build 0 None None
            "Closed an issue/pull request within 5 minutes of opening"
            [("Default", 1)] (Some "Broken pipe")) /\
  both_none (Progress.Build 0 None None
            "Closed an issue/pull request within 5 minutes of opening"
            [("Default", 1)] (Some "Broken pipe")) /\
  ~ exactly_one
      (max_achieved (Progress.Build 0 None None
            "Closed an issue/pull request within 5 minutes of opening"
            [("Default", 1)] (Some "Broken pipe")))
      (next_ahead (Progress.Build 0 None None
            "Closed an issue/pull request within 5 minutes of opening"
            [("Default", 1)] (Some "Broken pipe"))).
Proof.
  split; [reflexivity|]. split; [split; reflexivity|].
  intros [[[(t & Ht & _) _] _]|[_ (n & Hn & _)]]; discriminate.
Qed.

(** ** The check methods *)

Lemma scan_stars_max (repos : paged Repo) (max_stars : Z) :
  scan_stars repos max_stars
  = fold_left Z.max (public_stars (yielded repos)) max_stars.
Proof.
  unfold public_stars. revert max_stars.
  induction repos as [|repo rest IH|]; intros m; simpl; try reflexivity.
  destruct (private repo); simpl; [apply IH|].
  destruct (Z.gtb_spec (stargazers_count repo) m) as [Hgt|Hle]; rewrite IH.
  - now rewrite Z.max_r by lia.
  - now rewrite Z.max_l by lia.
Qed.

Lemma scan_stars_cut (repos : paged Repo) (max_stars : Z) :
  scan_stars (cut repos) max_stars = scan_stars repos max_stars.
Proof.
  revert max_stars.
  induction repos as [|repo rest IH|]; intros m; simpl; try reflexivity.
  now rewrite !IH.
Qed.

Lemma scan_stars_lower_bound (repos : paged Repo) (max_stars : Z) :
  max_stars <= scan_stars repos max_stars.
Proof.
  revert max_stars.
  induction repos as [|repo rest IH|]; intros m; simpl; try lia.
  destruct (private repo); simpl; [apply IH|].
  destruct (Z.gtb_spec (stargazers_count repo) m) as [Hgt|Hle];
    [|apply IH].
  specialize (IH (stargazers_count repo)). lia.
Qed.

Lemma collect_repos_spec (prs : paged PullRequest) (repos : set string) :
  NoDup repos ->
  NoDup (collect_repos prs repos) /\
  forall full_name,
    In full_name (collect_repos prs repos) <->
    In full_name repos \/ In full_name (names_read prs).
Proof.
  revert repos.
  induction prs as [|pr rest IH|]; intros repos Hnd; simpl;
    try (split; [assumption|intros x; tauto]).
  destruct (repository pr) as [|full_name|].
  - apply IH, Hnd.
  - destruct (IH (set_add string_dec full_name repos)) as [Hnd' Hin'].
    { apply set_add_nodup, Hnd. }
    split; [exact Hnd'|]. intros x. rewrite Hin', set_add_iff. simpl.
    intuition congruence.
  - split; [assumption|intros x; simpl; tauto].
Qed.

Lemma collect_repos_cut (prs : paged PullRequest) (repos : set string) :
  collect_repos (cut_on_repository prs) repos = collect_repos prs repos.
Proof.
  revert repos.
  induction prs as [|pr rest IH|]; intros repos; simpl; try reflexivity.
  destruct (repository pr) eqn:E; simpl; rewrite ?E; auto.
Qed.

Lemma slice_cut_on_repository (n : nat) (prs : paged PullRequest) :
  slice n (cut_on_repository prs) = cut_on_repository (slice n prs).
Proof.
  revert prs. induction n as [|n IH]; intros prs; [reflexivity|].
  destruct prs as [|pr rest|]; simpl; try reflexivity.
  destruct (repository pr); simpl; now rewrite ?IH.
Qed.

Lemma breaks_cut {A} (p : paged A) : breaks (cut p) = false.
Proof. induction p; simpl; auto. Qed.

Lemma breaks_cut_on_repository (prs : paged PullRequest) :
  breaks_on_repository (cut_on_repository prs) = false.
Proof.
  induction prs as [|pr rest IH|]; simpl; try reflexivity.
  destruct (repository pr) eqn:E; simpl; rewrite ?E; auto.
Qed.

Lemma as_observed_raises_nowhere (ext : External) :
  raises_nowhere (as_observed ext).
Proof.
  unfold raises_nowhere, as_observed.
  destruct (search_issues ext) as [prs|], (get_repos ext) as [repos|];
    simpl; do 3 eexists;
    (split; [reflexivity|]); (split; [reflexivity|]);
    (split; [first [apply breaks_cut_on_repository|reflexivity]|]);
    (split; [reflexivity|]);
    first [apply breaks_cut|reflexivity].
Qed.

(** No method of the tracker can tell [ext] from [as_observed ext]. *)
Lemma methods_as_observed (ext : External) (method_name : string)
    (method : External -> Z) :
  Dict.get methods method_name = Some method ->
  method ext = method (as_observed ext).
Proof.
  intros H. apply dict_get_in in H.
  repeat (destruct H as [H|H]; [inversion H; subst; clear H|]);
    try reflexivity; try (now destruct H).
  - unfold count_merged_prs, as_observed. simpl.
    destruct (search_issues ext) as [prs|]; [|reflexivity].
    destruct (totalCount prs); reflexivity.
  - unfold count_repos_with_merged_prs, as_observed.
    cbn [search_issues].
    destruct (search_issues ext) as [prs|]; [|reflexivity].
    cbn [results].
    now rewrite slice_cut_on_repository, collect_repos_cut.
  - unfold count_max_stars, as_observed. simpl.
    destruct (get_repos ext) as [repos|]; [|reflexivity].
    now rewrite scan_stars_cut.
Qed.

(** C10 (as the code has it): every check method returns an integer for
    every state of the service.  All but [count_merged_prs] return a
    non-negative one; [count_merged_prs] returns the total the service
    reports as it is, so it is non-negative exactly when the reported
    total is.  The five unobservable checks return 0; the three counts
    return what they had counted when a query raised (0 when a query
    raised at once), namely the reported total, the number of distinct
    repository names read among the first hundred results, and the
    greatest star count among the public repositories seen; and every
    method returns on a service whose queries raise what it returns on a
    service on which nothing raises. *)
Theorem C10_checks_return_counts (ext : External) :
  (forall method_name method,
      Dict.get methods method_name = Some method ->
      (method_name <> "count_merged_prs" -> 0 <= method ext) /\
      (str_in method_name unobservable = true -> method ext = 0) /\
      method ext = method (as_observed ext)) /\
  (0 <= count_merged_prs ext <->
   forall prs n,
     search_issues ext = Some prs -> totalCount prs = Some n -> 0 <= n) /\
  raises_nowhere (as_observed ext) /\
  (check_quickdraw ext = 0 /\ count_coauthored_commits ext = 0 /\
   count_discussion_answers ext = 0 /\ check_yolo_merges ext = 0 /\
   check_sponsorships ext = 0) /\
  (search_issues ext = None ->
   count_merged_prs ext = 0 /\ count_repos_with_merged_prs ext = 0) /\
  (forall prs, search_issues ext = Some prs ->
   count_merged_prs ext
   = match totalCount prs with Some n => n | None => 0 end /\
   exists repos,
     count_repos_with_merged_prs ext = Z.of_nat (List.length repos) /\
     NoDup repos /\
     forall full_name,
       In full_name repos <->
       In full_name (names_read (slice 100 (results prs)))) /\
  (get_repos ext = None -> count_max_stars ext = 0) /\
  (forall repos, get_repos ext = Some repos ->
   count_max_stars ext = fold_left Z.max (public_stars (yielded repos)) 0).
Proof.
  split; [|split; [|split; [apply as_observed_raises_nowhere|split; [|split; [|split; [|split]]]]]].
  - intros method_name method H. split; [|split].
    + intros Hname. apply dict_get_in in H.
      repeat (destruct H as [H|H]; [inversion H; subst; clear H|]);
        try (cbv; discriminate); try (now destruct H).
      * now contradiction Hname.
      * unfold count_repos_with_merged_prs. lia.
      * unfold count_max_stars. destruct (get_repos ext); [|lia].
        apply scan_stars_lower_bound.
    + intros Hu. apply dict_get_in in H.
      repeat (destruct H as [H|H]; [inversion H; subst; clear H|]);
        try reflexivity; try discriminate. destruct H.
    + apply (methods_as_observed ext method_name), H.
  - unfold count_merged_prs.
    destruct (search_issues ext) as [prs|] eqn:Es.
    + destruct (totalCount prs) as [n|] eqn:En.
      * split; [intros Hn prs' n' [= <-] En'; congruence|eauto].
      * split; [intros _ prs' n' [= <-] En'; congruence|lia].
    + split; [intros _ prs' n' Es'; discriminate|lia].
  - repeat split.
  - intros E. unfold count_merged_prs, count_repos_with_merged_prs.
    rewrite E. split; reflexivity.
  - intros prs E. unfold count_merged_prs, count_repos_with_merged_prs.
    rewrite E. split; [reflexivity|].
    destruct (collect_repos_spec (slice 100 (results prs)) (empty_set string))
      as [Hnd Hin]; [constructor|].
    eexists. split; [reflexivity|]. split; [exact Hnd|].
    intros x. rewrite Hin. simpl. tauto.
  - intros E. unfold count_max_stars. now rewrite E.
  - intros repos E. unfold count_max_stars. rewrite E. apply scan_stars_max.
Qed.

(** The counts on a service whose iterations raise midway. *)
Lemma C10_checks_return_counts_partly_observed :
  count_merged_prs partly_observed = 5 /\
  count_repos_with_merged_prs partly_observed = 1 /\
  count_max_stars partly_observed = 7 /\
  0 <= count_max_stars partly_observed /\
  count_max_stars partly_observed
  = count_max_stars (as_observed partly_observed).
Proof.
  pose proof (C10_checks_return_counts partly_observed) as H.
  destruct H as (Hm & _).
  destruct (Hm "count_max_stars" count_max_stars eq_refl) as (Hpos & _ & Hobs).
  split; [reflexivity|]. split; [reflexivity|]. split; [reflexivity|].
  split; [apply Hpos; discriminate|exact Hobs].
Defined.

(** On a service on which nothing raises and which reports a total of
    -3, the merged pull requests are counted as -3. *)
Lemma C10_negative_total_is_returned :
  Dict.get methods "count_merged_prs" = Some count_merged_prs /\
  count_merged_prs negative_total = -3 /\
  count_merged_prs negative_total < 0 /\
  raises_nowhere negative_total.
Proof.
  split; [reflexivity|]. split; [reflexivity|]. split; [reflexivity|].
  do 3 eexists. repeat split; reflexivity.
Qed.

(** ** Unknown readings *)

Lemma zero_entry (badge_info : Badge.info) :
  well_formed badge_info ->
  exists tier requirement rest,
    Badge.tiers badge_info = (tier, requirement) :: rest /\
    badge_entry badge_info (Returned 0)
    = Progress.Build 0 None
        (Some (Next.Build tier requirement requirement))
        (Badge.description badge_info) (Badge.tiers badge_info) None.
Proof.
  intros [Hinc (t0 & r0 & rest & Et & Hr0)].
  exists t0, r0, rest. split; [exact Et|].
  unfold badge_entry. rewrite (sorted_tiers_increasing _ Hinc).
  pose proof (increasing_strongly _ Hinc) as Hs.
  assert (Ha : scan_achieved 0 (Badge.tiers badge_info) = None).
  { apply scan_achieved_none. intros t r Hin. rewrite Et in Hs, Hin.
    pose proof (increasing_head t0 r0 rest Hs t r Hin). lia. }
  rewrite Ha, Et. simpl.
  destruct (Z.ltb_spec 0 r0); [|lia].
  now rewrite Z.sub_0_r.
Qed.

Lemma unknown_reading_zero (ext : External) (method_name : string)
    (method : External -> Z) :
  Dict.get methods method_name = Some method ->
  unknown_reading ext method_name = true ->
  str_in method_name ("count_merged_prs" :: unobservable) = true ->
  method ext = 0.
Proof.
  intros H. apply dict_get_in in H.
  repeat (destruct H as [H|H]; [inversion H; subst; clear H|]);
    try (now destruct H); intros Hu Hs;
    try reflexivity; try discriminate.
  unfold unknown_reading, query_failed in Hu. simpl in Hu.
  unfold count_merged_prs.
  destruct (search_issues ext) as [prs|]; [|reflexivity].
  destruct (totalCount prs); [discriminate|reflexivity].
Qed.

(** C1 (as the code has it): no reading is marked unknown.  When the
    metric of a badge cannot be observed or a query of its check raises and
    the check method catches it, the check returns an integer: 0 for the
    five unobservable checks and for the merged-pull-request count, what
    was counted before the failure otherwise.  The entry is computed from
    that integer as from any reading, carries no marker, and is the entry
    of a service on which nothing raises; for the integer 0 it has no
    achieved tier and its next tier is the lowest one, with as much needed
    as that tier requires.  Only when the exception leaves the check method
    does the entry have neither tier, and then it keeps the error text. *)
Theorem C1_unknown_reading_is_counted (env : Environment)
    (badge_name : string) (badge_info : Badge.info) :
  Dict.get badges badge_name = Some badge_info ->
  unknown_reading (service (env badge_name)) (Badge.check_method badge_info)
  = true ->
  exists e,
    Dict.get (get_badge_progress env) badge_name = Some e /\
    (fault (env badge_name) = None ->
     Progress.error e = None /\
     e = badge_entry badge_info (Returned (Progress.current e)) /\
     (exists method,
         Dict.get methods (Badge.check_method badge_info) = Some method /\
         Progress.current e = method (as_observed (service (env badge_name)))) /\
     (str_in (Badge.check_method badge_info)
        ("count_merged_prs" :: unobservable) = true ->
      Progress.current e = 0) /\
     (Progress.current e = 0 ->
      Progress.achieved_tier e = None /\
      exists tier requirement rest,
        Badge.tiers badge_info = (tier, requirement) :: rest /\
        Progress.next_requirement e
        = Some (Next.Build tier requirement requirement))) /\
    (forall msg, fault (env badge_name) = Some msg ->
     both_none e /\ Progress.error e = Some msg).
Proof.
  intros Hb Hu. rewrite get_badge_progress_get, Hb. simpl.
  eexists. split; [reflexivity|]. split.
  - intros Hf. destruct (run_check_returns _ _ _ Hb Hf) as (m & Hm & ->).
    split; [reflexivity|]. split; [reflexivity|]. split; [|split].
    + exists m. split; [exact Hm|].
      apply (methods_as_observed _ _ _ Hm).
    + intros Hs. apply (unknown_reading_zero _ _ _ Hm Hu Hs).
    + intros H0. simpl in H0. rewrite H0.
      destruct (zero_entry badge_info) as (t & r & rest & Et & Ee).
      { apply (badges_well_formed _ _ Hb). }
      rewrite Ee. simpl. split; [reflexivity|].
      exists t, r, rest. split; [exact Et|reflexivity].
  - intros msg Hf. rewrite (run_check_raises _ _ _ _ Hb Hf).
    split; [split|]; reflexivity.
Qed.

(** Quickdraw, whose metric cannot be observed, on the unreachable service. *)
Lemma C1_unknown_reading_is_counted_quickdraw :
  exists e,
    Dict.get (get_badge_progress nothing_observed) "Quickdraw" = Some e /\
    Progress.current e = 0 /\
    Progress.error e = None /\
    Progress.achieved_tier e = None /\
    Progress.next_requirement e = Some (Next.Build "Default" 1 1).
Proof.
  destruct (C1_unknown_reading_is_counted nothing_observed "Quickdraw"
              (Badge.Build
                 "Closed an issue/pull request within 5 minutes of opening"
                 [("Default", 1)] "check_quickdraw")
              eq_refl eq_refl) as (e & He & Hret & _).
  exists e. split; [exact He|].
  destruct (Hret eq_refl) as (Herr & _ & _ & Hzero & Hshape).
  specialize (Hzero eq_refl).
  destruct (Hshape Hzero) as (Ha & t & r & rest & Et & Hn).
  injection Et as <- <- <-.
  repeat split; assumption.
Defined.

(** C1 fails as stated: with every query raising, the entries of Quickdraw
    (unobservable) and of Heart On Your Sleeve (failed query) have a next
    tier and no marker; and when listing the repositories raises after a
    repository with twenty stars, Starstruck has an achieved tier. *)
Lemma C1_unknown_reading_has_tiers :
  unknown_reading (service (nothing_observed "Quickdraw")) "check_quickdraw"
  = true /\
  Dict.get (get_badge_progress nothing_observed) "Quickdraw"
  = Some (Progress.Build 0 None (Some (Next.Build "Default" 1 1))
            "Closed an issue/pull request within 5 minutes of opening"
            [("Default", 1)] None) /\
  unknown_reading (service (nothing_observed "Heart On Your Sleeve"))
    "count_merged_prs" = true /\
  Dict.get (get_badge_progress nothing_observed) "Heart On Your Sleeve"
  = Some (Progress.Build 0 None (Some (Next.Build "Default" 1 1))
            "Submit a pull request that gets merged"
            [("Default", 1); ("Bronze", 2); ("Silver", 4); ("Gold", 8)]
            None) /\
  unknown_reading (service (stars_partly_observed "Starstruck"))
    "count_max_stars" = true /\
  Dict.get (get_badge_progress stars_partly_observed) "Starstruck"
  = Some (Progress.Build 20 (Some "Default")
            (Some (Next.Build "Bronze" 128 108))
            "Created a repository that has many stars"
            [("Default", 16); ("Bronze", 128); ("Silver", 512);
             ("Gold", 4096)]
            None).
Proof. repeat split. Qed.

(** ** Isolation of the checks *)

(** C9: when the check of badge [A] raises, the progress dictionary still
    has an entry for every badge of the catalogue, in the catalogue's
    order; the entry of every other badge is what it is without the
    failure, and the entry of [A] is the one the handler writes. *)
Theorem C9_failure_is_isolated (env env' : Environment) (A msg : string) :
  fault (env' A) = Some msg ->
  (forall badge_name, badge_name <> A -> env' badge_name = env badge_name) ->
  Dict.keys (get_badge_progress env') = Dict.keys badges /\
  (forall B, B <> A ->
     Dict.get (get_badge_progress env') B
     = Dict.get (get_badge_progress env) B) /\
  (forall badge_info, Dict.get badges A = Some badge_info ->
     Dict.get (get_badge_progress env') A
     = Some (badge_entry badge_info (Raised msg))).
Proof.
  intros Hf Hsame. split; [apply get_badge_progress_keys|]. split.
  - intros B HB. rewrite !get_badge_progress_get. now rewrite (Hsame B HB).
  - intros info Hb. rewrite get_badge_progress_get, Hb. simpl.
    now rewrite (run_check_raises _ _ _ _ Hb Hf).
Qed.

(** The check of Quickdraw raises; the entry of YOLO is what it is without
    the failure. *)
Lemma C9_failure_is_isolated_quickdraw :
  Dict.keys (get_badge_progress quickdraw_check_raises)
  = [ "Heart On Your Sleeve"; "Open Sourcerer"; "Starstruck"; "Quickdraw";
      "Pair Extraordinaire"; "Pull Shark"; "Galaxy Brain"; "YOLO";
      "Public Sponsor" ] /\
  Dict.get (get_badge_progress quickdraw_check_raises) "YOLO"
  = Dict.get (get_badge_progress nothing_observed) "YOLO" /\
  Dict.get (get_badge_progress quickdraw_check_raises) "Quickdraw"
  = Some (Progress.Build 0 None None
            "Closed an issue/pull request within 5 minutes of opening"
            [("Default", 1)] (Some "Broken pipe")).
Proof.
  assert (Hsame : forall badge_name, badge_name <> "Quickdraw" ->
            quickdraw_check_raises badge_name = nothing_observed badge_name).
  { intros n Hn. unfold quickdraw_check_raises, with_observation.
    destruct (String.eqb_spec n "Quickdraw"); [contradiction|reflexivity]. }
  destruct (C9_failure_is_isolated nothing_observed quickdraw_check_raises
              "Quickdraw" "Broken pipe" eq_refl Hsame) as (Hk & Ho & Ha).
  split; [exact Hk|]. split.
  - apply Ho. discriminate.
  - apply (Ha _ eq_refl).
Defined.

(** ** The earning plan *)

Import BadgeOrchestrator.

Lemma bucket_eqb_eq (a b : bucket) : bucket_eqb a b = true <-> a = b.
Proof. destruct a, b; simpl; split; congruence. Qed.

(** One round of the loop appends the badge to its bucket and leaves the
    other buckets alone. *)
Lemma plan_badge_names (progress : Dict.t Progress.entry) (plan : Plan.t)
    (badge_name : string) (b : bucket) :
  bucket_names (plan_badge progress plan badge_name) b
  = bucket_names plan b
    ++ (if in_bucket progress b badge_name then [badge_name] else []).
Proof.
  unfold in_bucket, bucket_of, plan_badge, capability, bucket_names.
  destruct (Dict.get progress badge_name) as [info|];
    [|now rewrite app_nil_r].
  destruct (truthy (Progress.achieved_tier info)).
  - destruct b; simpl; rewrite ?map_app, ?app_nil_r; reflexivity.
  - destruct (str_in badge_name ["Quickdraw"; "YOLO"]);
      [destruct b; simpl; rewrite ?map_app, ?app_nil_r; reflexivity|].
    destruct (str_in badge_name ["Public Sponsor"]);
      [destruct b; simpl; rewrite ?map_app, ?app_nil_r; reflexivity|].
    destruct (str_in badge_name
                ["Heart On Your Sleeve"; "Open Sourcerer";
                 "Pair Extraordinaire"]);
      destruct b; simpl; rewrite ?map_app, ?app_nil_r; reflexivity.
Qed.

Lemma plan_loop_names (progress : Dict.t Progress.entry)
    (order : list string) (plan : Plan.t) (b : bucket) :
  bucket_names (fold_left (plan_badge progress) order plan) b
  = bucket_names plan b ++ filter (in_bucket progress b) order.
Proof.
  revert plan. induction order as [|n order IH]; intros plan; simpl.
  - now rewrite app_nil_r.
  - rewrite IH, plan_badge_names, <- app_assoc.
    destruct (in_bucket progress b n); reflexivity.
Qed.

Lemma plan_order_of_loop (progress : Dict.t Progress.entry) (b : bucket) :
  bucket_names (plan_of progress) b
  = filter (in_bucket progress b) earning_order.
Proof. unfold plan_of. rewrite plan_loop_names. now destruct b. Qed.

(** C7 (as the code has it): in every bucket the badges stand in the
    planner's own earning order (easiest to hardest), restricted to the
    badges of that bucket; the order in which the catalogue declares them
    plays no part. *)
Theorem C7_bucket_order (env : Environment) (b : bucket) :
  bucket_names (get_earning_plan env) b
  = filter (in_bucket (get_badge_progress env) b) earning_order /\
  forall progress,
    bucket_names (plan_of progress) b
    = filter (in_bucket progress b) earning_order.
Proof.
  split; [|intros progress]; apply plan_order_of_loop.
Qed.

(** C7 fails as stated: when no badge is achieved, the long-term bucket
    presents Pull Shark, Galaxy Brain, Starstruck, whereas the catalogue
    declares Starstruck before the other two. *)
Lemma C7_not_catalogue_order :
  bucket_names (get_earning_plan nothing_observed) LongTerm
  = ["Pull Shark"; "Galaxy Brain"; "Starstruck"] /\
  filter (in_bucket (get_badge_progress nothing_observed) LongTerm)
    (Dict.keys badges)
  = ["Starstruck"; "Pull Shark"; "Galaxy Brain"] /\
  bucket_names (get_earning_plan nothing_observed) LongTerm
  <> filter (in_bucket (get_badge_progress nothing_observed) LongTerm)
       (Dict.keys badges).
Proof.
  assert (E1 : bucket_names (get_earning_plan nothing_observed) LongTerm
               = ["Pull Shark"; "Galaxy Brain"; "Starstruck"])
    by reflexivity.
  assert (E2 : filter
                 (in_bucket (get_badge_progress nothing_observed) LongTerm)
                 (Dict.keys badges)
               = ["Starstruck"; "Pull Shark"; "Galaxy Brain"])
    by reflexivity.
  split; [exact E1|]. split; [exact E2|].
  rewrite E1, E2. discriminate.
Qed.

Lemma count_occ_filter (f : string -> bool) (l : list string) (x : string) :
  count_occ string_dec (filter f l) x
  = if f x then count_occ string_dec l x else 0%nat.
Proof.
  induction l as [|y l IH]; simpl; [now destruct (f x)|].
  destruct (f y) eqn:Ey; simpl; destruct (string_dec y x) as [->|Hne];
    rewrite ?IH; try rewrite Ey; try reflexivity.
Qed.

Lemma occurrences_plan_of (progress : Dict.t Progress.entry)
    (badge_name : string) :
  occurrences (plan_of progress) badge_name
  = match bucket_of progress badge_name with
    | Some _ => count_occ string_dec earning_order badge_name
    | None => 0%nat
    end.
Proof.
  unfold occurrences, map, fold_right.
  rewrite !plan_order_of_loop, !count_occ_filter. unfold in_bucket.
  generalize (count_occ string_dec earning_order badge_name). intros n.
  destruct (bucket_of progress badge_name) as [[]|]; simpl; lia.
Qed.

Lemma earning_order_once (badge_name : string) :
  In badge_name earning_order ->
  count_occ string_dec earning_order badge_name = 1%nat.
Proof.
  intros H. repeat (destruct H as [<-|H]; [reflexivity|]). destruct H.
Qed.

(** The planner's order lists the badges of the catalogue. *)
Lemma earning_order_catalogue (badge_name : string) :
  In badge_name earning_order <-> In badge_name (Dict.keys badges).
Proof.
  split; intros H; repeat (destruct H as [<-|H]; [simpl; tauto|]);
    destruct H.
Qed.

Lemma badges_labels (badge_name : string) (badge_info : Badge.info) :
  Dict.get badges badge_name = Some badge_info ->
  forallb (fun x => negb (String.eqb (fst x) "")) (Badge.tiers badge_info)
  = true.
Proof.
  intros H. apply dict_get_in in H.
  repeat (destruct H as [H|H]; [inversion H; subst; reflexivity|]).
  destruct H.
Qed.

(** In the tracker's entries an achieved tier is a label of the catalogue,
    so its truth value tells whether there is one. *)
Lemma tracker_achieved_truthy (env : Environment) (badge_name : string)
    (e : Progress.entry) :
  Dict.get (get_badge_progress env) badge_name = Some e ->
  truthy (Progress.achieved_tier e) = true <-> Progress.achieved_tier e <> None.
Proof.
  rewrite get_badge_progress_get.
  destruct (Dict.get badges badge_name) as [info|] eqn:Hb; [|discriminate].
  simpl. intros [= <-].
  destruct (run_check (env badge_name) (Badge.check_method info)) as [n|msg];
    simpl; [|split; [discriminate|congruence]].
  destruct (badges_well_formed _ _ Hb) as [[Hinc _] _].
  rewrite (sorted_tiers_increasing _ Hinc).
  destruct (scan_achieved n (Badge.tiers info)) as [t|] eqn:Ea;
    [|split; [discriminate|congruence]].
  apply (scan_achieved_some n _ (increasing_strongly _ Hinc)) in Ea.
  destruct Ea as (r & Hin & _).
  pose proof (badges_labels _ _ Hb) as Hl. rewrite forallb_forall in Hl.
  specialize (Hl _ Hin). simpl in Hl. simpl. rewrite Hl.
  split; [discriminate|reflexivity].
Qed.

(** C6: the plan gives every badge of the catalogue exactly one place.  A
    badge with an achieved tier stands in the completed bucket, whatever its
    capability class; a badge without one stands in the bucket of its
    capability class, which is one of the four others; it stands in no
    other bucket and not twice; and nothing else stands in the plan. *)
Theorem C6_one_bucket_each (env : Environment) (badge_name : string) :
  In badge_name (Dict.keys badges) ->
  exists e,
    Dict.get (get_badge_progress env) badge_name = Some e /\
    (Progress.achieved_tier e <> None ->
     bucket_of (get_badge_progress env) badge_name = Some Completed) /\
    (Progress.achieved_tier e = None ->
     bucket_of (get_badge_progress env) badge_name
     = Some (capability badge_name) /\
     capability badge_name <> Completed) /\
    (forall b,
        In badge_name (bucket_names (get_earning_plan env) b) <->
        bucket_of (get_badge_progress env) badge_name = Some b) /\
    occurrences (get_earning_plan env) badge_name = 1%nat /\
    (forall b other,
        In other (bucket_names (get_earning_plan env) b) ->
        In other (Dict.keys badges)).
Proof.
  intros Hin.
  assert (Hget : exists e,
             Dict.get (get_badge_progress env) badge_name = Some e).
  { rewrite get_badge_progress_get.
    repeat (destruct Hin as [<-|Hin]; [eexists; reflexivity|]).
    destruct Hin. }
  destruct Hget as [e He]. exists e. split; [exact He|].
  pose proof (tracker_achieved_truthy env badge_name e He) as Ht.
  assert (Hb : bucket_of (get_badge_progress env) badge_name
               = Some (if truthy (Progress.achieved_tier e)
                       then Completed else capability badge_name)).
  { unfold bucket_of. now rewrite He. }
  split; [|split; [|split; [|split]]].
  - intros Ha. rewrite Hb. apply Ht in Ha. now rewrite Ha.
  - intros Ha. rewrite Hb, Ha. simpl. split; [reflexivity|].
    unfold capability.
    repeat match goal with |- context [if ?c then _ else _] => destruct c end;
      discriminate.
  - intros b. unfold get_earning_plan. rewrite plan_order_of_loop.
    rewrite filter_In. unfold in_bucket. rewrite Hb.
    apply earning_order_catalogue in Hin. rewrite bucket_eqb_eq. split.
    + intros [_ ->]. reflexivity.
    + intros [= ->]. split; [exact Hin|reflexivity].
  - unfold get_earning_plan. rewrite occurrences_plan_of, Hb.
    apply earning_order_once, earning_order_catalogue, Hin.
  - intros b other. unfold get_earning_plan. rewrite plan_order_of_loop.
    rewrite filter_In. intros [H _]. apply earning_order_catalogue, H.
Qed.

(** Quickdraw, not achieved, stands once in the plan, in the immediate
    bucket. *)
Lemma C6_one_bucket_each_quickdraw :
  bucket_of (get_badge_progress nothing_observed) "Quickdraw"
  = Some Immediate /\
  In "Quickdraw" (bucket_names (get_earning_plan nothing_observed) Immediate) /\
  occurrences (get_earning_plan nothing_observed) "Quickdraw" = 1%nat.
Proof.
  assert (Hin : In "Quickdraw" (Dict.keys badges)) by (simpl; tauto).
  destruct (C6_one_bucket_each nothing_observed "Quickdraw" Hin)
    as (e & He & _ & _ & Hb & Hone & _).
  split; [reflexivity|]. split; [apply Hb; reflexivity|exact Hone].
Defined.

(** ** The timed workflows *)

Import Run.

(** Case analysis on what the service answers to the next call. *)
Ltac next_call o :=
  match goal with
  | |- context [o ?history ?c] =>
      let E := fresh "E" in destruct (o history c) eqn:E; simpl
  end.

Ltac run_workflow o :=
  unfold run_states, events, returned, run, _earn_quickdraw_badge, _earn_yolo_badge,
    QuickdrawAutomation.create_and_close_issue_quickly,
    try_except, bind, request, sleep, sleep_for, bind_repo, repo_in_locals,
    ret, start;
  simpl; repeat next_call o.

(** C8: when no call raises, the fast-close workflow creates the
    repository, creates the issue, sleeps 30 seconds, closes the issue,
    deletes the repository and returns [True]; its state sequence is Idle,
    Provisioning, Waiting, Finalizing, CleaningUp, Succeeded and nothing it
    created remains.  The stand-alone fast-close routine sleeps for the
    delay it is given, 30 seconds when none is given, whenever
    [time.sleep] takes that delay, as it does from 0 to 30 seconds; a
    delay it refuses, as every negative one, ends the routine with
    [False] once the issue is created.  The unreviewed-merge workflow
    never sleeps, whatever the service answers, and goes from Provisioning
    straight to Finalizing when no call raises. *)
Theorem C8_fast_close_run (o : Oracle) :
  (forall history c, o history c = false) ->
  run _earn_quickdraw_badge o
  = ([Call_ok create_repo; Call_ok create_issue; Sleep 30;
      Call_ok issue_edit_closed; Call_ok repo_delete], Some true) /\
  run_states (run _earn_quickdraw_badge o)
  = [Idle; Provisioning; Waiting; Finalizing; CleaningUp; Succeeded] /\
  created (events (run _earn_quickdraw_badge o))
  = [repository_handle; issue_handle] /\
  remaining [] (events (run _earn_quickdraw_badge o)) = [] /\
  (forall clock,
      run (QuickdrawAutomation.create_and_close_issue_quickly clock None) o
      = ([Call_ok get_repo; Call_ok create_issue; Sleep 30;
          Call_ok issue_create_comment; Call_ok issue_edit_closed],
         Some true)) /\
  (forall clock delay_seconds,
      run (QuickdrawAutomation.create_and_close_issue_quickly clock
             (Some delay_seconds)) o
      = if taken clock delay_seconds
        then ([Call_ok get_repo; Call_ok create_issue; Sleep delay_seconds;
               Call_ok issue_create_comment; Call_ok issue_edit_closed],
              Some true)
        else ([Call_ok get_repo; Call_ok create_issue], Some false)) /\
  (forall clock delay_seconds,
      (0 <= delay_seconds <= 30 -> taken clock delay_seconds = true) /\
      (delay_seconds < 0 -> taken clock delay_seconds = false)) /\
  run _earn_yolo_badge o
  = ([Call_ok create_repo; Call_ok get_branch; Call_ok create_git_ref;
      Call_ok create_file; Call_ok create_pull; Call_ok pr_merge;
      Call_ok repo_delete], Some true) /\
  run_states (run _earn_yolo_badge o)
  = [Idle; Provisioning; Finalizing; CleaningUp; Succeeded] /\
  remaining [] (events (run _earn_yolo_badge o)) = [] /\
  (forall (o' : Oracle) seconds,
      ~ In (Sleep seconds) (events (run _earn_yolo_badge o'))).
Proof.
  intros Hok.
  assert (Eq : run _earn_quickdraw_badge o
               = ([Call_ok create_repo; Call_ok create_issue; Sleep 30;
                   Call_ok issue_edit_closed; Call_ok repo_delete],
                  Some true)).
  { unfold run, _earn_quickdraw_badge, try_except, bind, request, sleep,
      bind_repo, ret, start. simpl. now rewrite !Hok. }
  assert (Ey : run _earn_yolo_badge o
               = ([Call_ok create_repo; Call_ok get_branch;
                   Call_ok create_git_ref; Call_ok create_file;
                   Call_ok create_pull; Call_ok pr_merge;
                   Call_ok repo_delete], Some true)).
  { unfold run, _earn_yolo_badge, try_except, bind, request, sleep,
      bind_repo, ret, start. simpl. now rewrite !Hok. }
  rewrite Eq, Ey.
  repeat (split; [reflexivity|]).
  split; [|split; [|split; [|split; [reflexivity|split; [reflexivity|split; [reflexivity|]]]]]].
  - intros clock.
    unfold run, QuickdrawAutomation.create_and_close_issue_quickly,
      try_except, bind, request, sleep_for, taken, ret, start. simpl.
    now rewrite !Hok.
  - intros clock d.
    unfold run, QuickdrawAutomation.create_and_close_issue_quickly,
      try_except, bind, request, sleep_for, ret, start. simpl.
    rewrite !Hok. simpl.
    destruct (taken clock d); simpl; now rewrite ?Hok.
  - intros clock d. unfold taken. split.
    + intros [H0 H30].
      apply Z.leb_le in H0. apply Z.leb_le in H30. now rewrite H0, H30.
    + intros Hneg. apply Z.leb_gt in Hneg. now rewrite Hneg.
  - intros o' seconds. run_workflow o';
      intros H; repeat (destruct H as [H|H]; [discriminate|]); exact H.
Qed.

(** The fast-close workflow on the service on which no call raises. *)
Lemma C8_fast_close_run_all_succeed :
  (forall history c, all_succeed history c = false) /\
  returned (run _earn_quickdraw_badge all_succeed) = Some true /\
  run_states (run _earn_quickdraw_badge all_succeed)
  = [Idle; Provisioning; Waiting; Finalizing; CleaningUp; Succeeded] /\
  remaining [] (events (run _earn_quickdraw_badge all_succeed)) = [].
Proof.
  assert (Hok : forall history c, all_succeed history c = false)
    by reflexivity.
  destruct (C8_fast_close_run all_succeed Hok) as (Er & Es & _ & Hr & _).
  split; [exact Hok|]. split; [now rewrite Er|]. split; [exact Es|exact Hr].
Defined.

Ltac solve_handles :=
  simpl;
  repeat match goal with
         | |- _ /\ _ => split
         | |- forall _, _ => intro
         | |- _ <-> _ => split
         | H : _ /\ _ |- _ => destruct H
         | H : _ \/ _ |- _ => destruct H
         | H : False |- _ => destruct H
         | H : _ = repository_handle |- _ => symmetry in H
         | |- exists _, _ => eexists
         end;
  subst; simpl; try reflexivity; try congruence; auto.

(** C5 (as the code has it): a workflow tracks one handle for cleanup, the
    repository, from the moment its creation returns.  Whatever call
    raises, a run returns, and it tries to delete the repository exactly
    when the repository was created; it tries to delete nothing else (the
    issue, branch, file and pull request go with the repository).  When
    the first provisioning step raises nothing was created and nothing is
    cleaned; when the second raises, or the finalize step, the repository
    is the one target of cleanup and the run returns [False].  When
    deleting the repository never raises, nothing remains after a run. *)
Theorem C5_cleanup_tracks_repository (o : Oracle) :
  (exists result, returned (run _earn_quickdraw_badge o) = Some result) /\
  (exists result, returned (run _earn_yolo_badge o) = Some result) /\
  (forall a,
      In a (cleanup_attempts (events (run _earn_quickdraw_badge o))) <->
      a = repository_handle /\
      In repository_handle (created (events (run _earn_quickdraw_badge o)))) /\
  (forall a,
      In a (cleanup_attempts (events (run _earn_yolo_badge o))) <->
      a = repository_handle /\
      In repository_handle (created (events (run _earn_yolo_badge o)))) /\
  (o [] create_repo = true ->
   run _earn_quickdraw_badge o = ([Call_raised create_repo], Some false) /\
   created (events (run _earn_quickdraw_badge o)) = [] /\
   cleanup_attempts (events (run _earn_quickdraw_badge o)) = []) /\
  (o [] create_repo = false ->
   o [Call_ok create_repo] create_issue = true ->
   returned (run _earn_quickdraw_badge o) = Some false /\
   created (events (run _earn_quickdraw_badge o)) = [repository_handle] /\
   cleanup_attempts (events (run _earn_quickdraw_badge o))
   = [repository_handle] /\
   run_states (run _earn_quickdraw_badge o)
   = [Idle; Provisioning; CleaningUp; Failed]) /\
  (o [] create_repo = false ->
   o [Call_ok create_repo] create_issue = false ->
   o [Call_ok create_repo; Call_ok create_issue; Sleep 30] issue_edit_closed
   = true ->
   returned (run _earn_quickdraw_badge o) = Some false /\
   created (events (run _earn_quickdraw_badge o))
   = [repository_handle; issue_handle] /\
   cleanup_attempts (events (run _earn_quickdraw_badge o))
   = [repository_handle] /\
   run_states (run _earn_quickdraw_badge o)
   = [Idle; Provisioning; Waiting; Finalizing; CleaningUp; Failed]) /\
  ((forall history, o history repo_delete = false) ->
   remaining [] (events (run _earn_quickdraw_badge o)) = [] /\
   remaining [] (events (run _earn_yolo_badge o)) = []).
Proof.
  split; [run_workflow o; eexists; reflexivity|].
  split; [run_workflow o; eexists; reflexivity|].
  split; [run_workflow o; solve_handles|].
  split; [run_workflow o; solve_handles|].
  split; [intros H1; run_workflow o; solve_handles|].
  split; [intros H1 H2; run_workflow o; solve_handles|].
  split; [intros H1 H2 H3; run_workflow o; solve_handles|].
  intros Hdel. split; run_workflow o; try reflexivity;
    repeat match goal with
           | H : o _ repo_delete = true |- _ => rewrite Hdel in H
           end;
    discriminate.
Qed.

(** C5 fails as stated: when closing the issue raises, the repository and
    the issue have been created, and cleanup is tried on the repository
    only, not on both handles in reverse creation order. *)
Lemma C5_issue_handle_not_cleaned :
  events (run _earn_quickdraw_badge (fails_at issue_edit_closed))
  = [Call_ok create_repo; Call_ok create_issue; Sleep 30;
     Call_raised issue_edit_closed; Call_ok repo_delete] /\
  created (events (run _earn_quickdraw_badge (fails_at issue_edit_closed)))
  = [repository_handle; issue_handle] /\
  cleanup_attempts
    (events (run _earn_quickdraw_badge (fails_at issue_edit_closed)))
  = [repository_handle] /\
  cleanup_attempts
    (events (run _earn_quickdraw_badge (fails_at issue_edit_closed)))
  <> rev (created
            (events (run _earn_quickdraw_badge (fails_at issue_edit_closed)))).
Proof.
  split; [reflexivity|]. split; [reflexivity|]. split; [reflexivity|].
  discriminate.
Qed.

(** C2, evaluated on the code: when every step up to the finalize step
    returns and deleting the repository raises, both workflows return
    [False], also when the second attempt to delete, made by the handler,
    returns and nothing is left behind; the same run without the cleanup
    failure returns [True]. *)
Theorem C2_cleanup_failure_changes_result :
  run _earn_quickdraw_badge (fails_at repo_delete)
  = ([Call_ok create_repo; Call_ok create_issue; Sleep 30;
      Call_ok issue_edit_closed; Call_raised repo_delete;
      Call_raised repo_delete], Some false) /\
  run _earn_quickdraw_badge (fails_once_at repo_delete)
  = ([Call_ok create_repo; Call_ok create_issue; Sleep 30;
      Call_ok issue_edit_closed; Call_raised repo_delete;
      Call_ok repo_delete], Some false) /\
  remaining [] (events (run _earn_quickdraw_badge (fails_once_at repo_delete)))
  = [] /\
  run _earn_yolo_badge (fails_at repo_delete)
  = ([Call_ok create_repo; Call_ok get_branch; Call_ok create_git_ref;
      Call_ok create_file; Call_ok create_pull; Call_ok pr_merge;
      Call_raised repo_delete; Call_raised repo_delete], Some false) /\
  returned (run _earn_quickdraw_badge all_succeed) = Some true /\
  returned (run _earn_yolo_badge all_succeed) = Some true.
Proof. repeat split. Qed.

(** * Further properties *)

(** ** Tiers declared in any order *)

Lemma insert_tier_in (x y : string * Z) (l : list (string * Z)) :
  In y (insert_tier x l) <-> y = x \/ In y l.
Proof.
  induction l as [|z l IH]; simpl.
  - intuition.
  - destruct (snd x <=? snd z); simpl; rewrite ?IH; intuition.
Qed.

Lemma sorted_tiers_in (y : string * Z) (tiers : Dict.t Z) :
  In y (sorted_tiers tiers) <-> In y tiers.
Proof.
  unfold sorted_tiers. induction tiers as [|x l IH]; simpl; [tauto|].
  rewrite insert_tier_in, IH. intuition.
Qed.

Lemma insert_tier_sorted (x : string * Z) (l : list (string * Z)) :
  Sorted (fun a b => snd a <= snd b) l ->
  Sorted (fun a b => snd a <= snd b) (insert_tier x l).
Proof.
  induction 1 as [|y l Hl IH Hy]; simpl; [repeat constructor|].
  destruct (Z.leb_spec (snd x) (snd y)) as [Hle|Hgt].
  - repeat constructor; assumption.
  - constructor; [exact IH|].
    destruct l as [|z l']; simpl.
    + constructor. lia.
    + destruct (Z.leb_spec (snd x) (snd z)); constructor; try lia.
      now inversion Hy.
Qed.

Lemma sorted_tiers_sorted (tiers : Dict.t Z) :
  StronglySorted (fun a b => snd a <= snd b) (sorted_tiers tiers).
Proof.
  apply Sorted_StronglySorted; [intros a b c; lia|].
  unfold sorted_tiers. induction tiers as [|x l IH]; simpl; [constructor|].
  apply insert_tier_sorted, IH.
Qed.

(** The achieved-tier loop on thresholds that do not decrease. *)
Lemma scan_achieved_greatest (reading : Z) (l : list (string * Z)) :
  StronglySorted (fun a b => snd a <= snd b) l ->
  forall t, scan_achieved reading l = Some t ->
  exists r, In (t, r) l /\ r <= reading /\
            forall t' r', In (t', r') l -> r' <= reading -> r' <= r.
Proof.
  induction 1 as [|[t0 r0] l Hl IH Hx]; intros t.
  - discriminate.
  - rewrite Forall_forall in Hx. rewrite scan_achieved_cons.
    destruct (scan_achieved reading l) as [t'|] eqn:E.
    + intros [= <-]. destruct (IH t' eq_refl) as (r' & Hin & Hle & Hmax).
      exists r'. repeat split; [now right|assumption|].
      intros t1 r1 [E1|Hin1] Hle1; [|eauto].
      inversion E1; subst. specialize (Hx _ Hin). simpl in Hx. lia.
    + pose proof (proj1 (scan_achieved_none reading l) E) as Hnone.
      destruct (Z.geb_spec reading r0) as [Hge|Hlt]; [|discriminate].
      intros [= <-]. exists r0. repeat split; [now left|assumption|].
      intros t1 r1 [E1|Hin1] Hle1; [inversion E1; lia|].
      specialize (Hnone _ _ Hin1). lia.
Qed.

(** The next-requirement loop on thresholds that do not decrease. *)
Lemma find_next_least (reading : Z) (l : list (string * Z)) :
  StronglySorted (fun a b => snd a <= snd b) l ->
  forall next, find_next reading l = Some next ->
  In (Next.tier next, Next.count next) l /\
  reading < Next.count next /\
  Next.needed next = Next.count next - reading /\
  forall t' r', In (t', r') l -> reading < r' -> Next.count next <= r'.
Proof.
  induction 1 as [|[t0 r0] l Hl IH Hx]; intros next; simpl; [discriminate|].
  rewrite Forall_forall in Hx.
  destruct (Z.ltb_spec reading r0) as [Hlt|Hge].
  - intros [= <-]. simpl. repeat split; [now left|assumption|].
    intros t1 r1 [E1|Hin1] _; [inversion E1; lia|].
    specialize (Hx _ Hin1). simpl in Hx. lia.
  - intros H. destruct (IH next H) as (Hin & Hlt & Hn & Hmin).
    repeat split; [now right|assumption|assumption|].
    intros t1 r1 [E1|Hin1] Hr; [inversion E1; subst; lia|eauto].
Qed.

(** X1: whatever the order in which a badge declares its tiers, and
    whether or not thresholds repeat, the entry written for a reading has
    as achieved tier a tier of greatest threshold among those the reading
    reaches (none exactly when it reaches no threshold), and as next
    requirement a tier of least threshold among those beyond the reading
    (none exactly when no threshold is beyond it), with a needed count
    that is the distance to that threshold and at least one. *)
Theorem X1_tiers_in_any_order (badge_info : Badge.info) (reading : Z) :
  let e := badge_entry badge_info (Returned reading) in
  let tiers := Badge.tiers badge_info in
  (Progress.achieved_tier e = None <->
   forall t r, In (t, r) tiers -> reading < r) /\
  (forall t, Progress.achieved_tier e = Some t ->
     exists r, In (t, r) tiers /\ r <= reading /\
               forall t' r', In (t', r') tiers -> r' <= reading -> r' <= r) /\
  (Progress.next_requirement e = None <->
   forall t r, In (t, r) tiers -> r <= reading) /\
  (forall next, Progress.next_requirement e = Some next ->
     In (Next.tier next, Next.count next) tiers /\
     reading < Next.count next /\
     Next.needed next = Next.count next - reading /\
     1 <= Next.needed next /\
     forall t' r', In (t', r') tiers -> reading < r' ->
                   Next.count next <= r').
Proof.
  intros e tiers. subst e. simpl.
  pose proof (sorted_tiers_sorted tiers) as Hs. fold tiers.
  split; [|split; [|split]].
  - rewrite scan_achieved_none. split; intros H t r Hin.
    + apply (H t r). now apply sorted_tiers_in.
    + apply (H t r). now apply sorted_tiers_in.
  - intros t Ht.
    destruct (scan_achieved_greatest reading _ Hs t Ht) as (r & Hin & Hle & Hmax).
    exists r. split; [now apply sorted_tiers_in|]. split; [exact Hle|].
    intros t' r' Hin'. apply (Hmax t' r'). now apply sorted_tiers_in.
  - rewrite find_next_none. split; intros H t r Hin.
    + apply (H t r). now apply sorted_tiers_in.
    + apply (H t r). now apply sorted_tiers_in.
  - intros next Hn.
    destruct (find_next_least reading _ Hs next Hn) as (Hin & Hlt & Hd & Hmin).
    split; [now apply sorted_tiers_in|]. split; [exact Hlt|].
    split; [exact Hd|]. split; [lia|].
    intros t' r' Hin'. apply (Hmin t' r'). now apply sorted_tiers_in.
Qed.

(** ** Growing readings *)

(** X2: when the reading grows, an achieved tier is never lost, its
    threshold does not go down, and a badge that had no next requirement
    left still has none. *)
Theorem X2_progress_is_monotone (badge_info : Badge.info)
    (reading reading' : Z) :
  reading <= reading' ->
  let e := badge_entry badge_info (Returned reading) in
  let e' := badge_entry badge_info (Returned reading') in
  (forall t, Progress.achieved_tier e = Some t ->
     exists t' r r',
       Progress.achieved_tier e' = Some t' /\
       In (t, r) (Badge.tiers badge_info) /\
       In (t', r') (Badge.tiers badge_info) /\
       r <= reading /\ r <= r' /\ r' <= reading') /\
  (Progress.next_requirement e = None ->
   Progress.next_requirement e' = None).
Proof.
  intros Hle e e'. subst e e'. simpl.
  pose proof (sorted_tiers_sorted (Badge.tiers badge_info)) as Hs.
  split.
  - intros t Ht.
    destruct (scan_achieved_greatest reading _ Hs t Ht) as (r & Hin & Hr & _).
    destruct (scan_achieved reading' (sorted_tiers (Badge.tiers badge_info)))
      as [t'|] eqn:E'.
    + destruct (scan_achieved_greatest reading' _ Hs t' E')
        as (r' & Hin' & Hr' & Hmax').
      exists t', r, r'. split; [reflexivity|].
      split; [now apply sorted_tiers_in|].
      split; [now apply sorted_tiers_in|].
      split; [exact Hr|]. split; [|exact Hr'].
      apply (Hmax' t r Hin). lia.
    + pose proof (proj1 (scan_achieved_none reading' _) E' t r Hin). lia.
  - rewrite !find_next_none. intros H t r Hin. specialize (H t r Hin). lia.
Qed.

(** From sixteen merged pull requests to 1024 of them, with the tiers of
    the end-to-end example. *)
Lemma X2_progress_is_monotone_example :
  16 <= 1024 /\
  exists t' r r',
    Progress.achieved_tier (badge_entry example_badge (Returned 1024))
    = Some t' /\
    In ("Bronze", r) (Badge.tiers example_badge) /\
    In (t', r') (Badge.tiers example_badge) /\
    r <= 16 /\ r <= r' /\ r' <= 1024.
Proof.
  assert (H : 16 <= 1024) by lia.
  split; [exact H|].
  apply (proj1 (X2_progress_is_monotone example_badge 16 1024 H) "Bronze").
  reflexivity.
Defined.

(** ** What the tracker can report *)

Lemma unobservable_entry (obs : Observation) (badge_name : string)
    (badge_info : Badge.info) :
  Dict.get badges badge_name = Some badge_info ->
  str_in (Badge.check_method badge_info) unobservable = true ->
  let e := badge_entry badge_info
             (run_check obs (Badge.check_method badge_info)) in
  Progress.current e = 0 /\ Progress.achieved_tier e = None.
Proof.
  intros Hb Hu.
  assert (Hc : run_check obs (Badge.check_method badge_info) = Returned 0 \/
               exists msg,
                 run_check obs (Badge.check_method badge_info) = Raised msg).
  { unfold str_in, unobservable in Hu. simpl in Hu.
    unfold run_check.
    repeat (apply orb_prop in Hu; destruct Hu as [Hu|Hu];
            [apply String.eqb_eq in Hu; rewrite Hu; simpl;
             destruct (fault obs); eauto|]).
    discriminate. }
  destruct Hc as [->|[msg ->]]; [|split; reflexivity].
  destruct (zero_entry badge_info) as (t & r & rest & _ & ->);
    [apply (badges_well_formed _ _ Hb)|].
  split; reflexivity.
Qed.

(** X3: whatever the service holds or answers, the entries of Quickdraw,
    Pair Extraordinaire, Galaxy Brain, YOLO and Public Sponsor have the
    count 0 and no achieved tier: the tracker never reports one of these
    badges as earned. *)
Theorem X3_unobservable_never_achieved (env : Environment)
    (badge_name : string) (badge_info : Badge.info) :
  Dict.get badges badge_name = Some badge_info ->
  str_in (Badge.check_method badge_info) unobservable = true ->
  exists e,
    Dict.get (get_badge_progress env) badge_name = Some e /\
    Progress.current e = 0 /\
    Progress.achieved_tier e = None.
Proof.
  intros Hb Hu. rewrite get_badge_progress_get, Hb. simpl.
  eexists. split; [reflexivity|].
  apply (unobservable_entry _ _ _ Hb Hu).
Qed.

(** YOLO, when listing the repositories breaks midway. *)
Lemma X3_unobservable_never_achieved_yolo :
  exists e,
    Dict.get (get_badge_progress stars_partly_observed) "YOLO" = Some e /\
    Progress.current e = 0 /\
    Progress.achieved_tier e = None.
Proof.
  apply (X3_unobservable_never_achieved stars_partly_observed "YOLO"
           (Badge.Build "Merged a pull request without a review"
              [("Default", 1)] "check_yolo_merges"));
    reflexivity.
Defined.

Lemma earned_count_from (progress : Dict.t Progress.entry) (achieved : Z) :
  fold_left
    (fun achieved '(_, info) =>
       if truthy (Progress.achieved_tier info) then achieved + 1 else achieved)
    progress achieved
  = achieved + fold_right (fun x s => earned (snd x) + s) 0 progress.
Proof.
  revert achieved. induction progress as [|[n info] l IH]; intros a; simpl.
  - lia.
  - rewrite IH. unfold earned.
    destruct (truthy (Progress.achieved_tier info)); lia.
Qed.

Lemma earned_count_sum (progress : Dict.t Progress.entry) :
  Summary.earned_count progress
  = fold_right (fun x s => earned (snd x) + s) 0 progress.
Proof. unfold Summary.earned_count. now rewrite earned_count_from. Qed.

Lemma tracker_entry_unobservable (env : Environment) (badge_name : string)
    (badge_info : Badge.info) :
  Dict.get badges badge_name = Some badge_info ->
  str_in (Badge.check_method badge_info) unobservable = true ->
  truthy (Progress.achieved_tier (tracker_entry env badge_name badge_info))
  = false.
Proof.
  intros Hb Hu. unfold tracker_entry.
  destruct (unobservable_entry (env badge_name) _ _ Hb Hu) as [_ ->].
  reflexivity.
Qed.

Lemma earned_bounds (info : Progress.entry) : 0 <= earned info <= 1.
Proof. unfold earned. destruct (truthy _); lia. Qed.

Lemma get_badge_progress_entries (env : Environment) :
  get_badge_progress env
  = map (fun x => (fst x, tracker_entry env (fst x) (snd x))) badges.
Proof. reflexivity. Qed.

(** X4: the count of earned badges that [summary] and
    [verify_badge_progress] print is at most 4 of 9, whatever the service
    holds: only Heart On Your Sleeve, Open Sourcerer, Starstruck and Pull
    Shark can count. *)
Theorem X4_at_most_four_earned (env : Environment) :
  Summary.total_count (get_badge_progress env) = 9 /\
  0 <= Summary.earned_count (get_badge_progress env) <= 4 /\
  Summary.earned_count (get_badge_progress env)
  = earned (tracker_entry env "Heart On Your Sleeve"
              (Badge.Build "Submit a pull request that gets merged"
                 [("Default", 1); ("Bronze", 2); ("Silver", 4); ("Gold", 8)]
                 "count_merged_prs"))
    + earned (tracker_entry env "Open Sourcerer"
                (Badge.Build
                   "User had PRs merged in multiple public repositories"
                   [("Default", 1); ("Bronze", 2); ("Silver", 3); ("Gold", 4)]
                   "count_repos_with_merged_prs"))
    + earned (tracker_entry env "Starstruck"
                (Badge.Build "Created a repository that has many stars"
                   [("Default", 16); ("Bronze", 128); ("Silver", 512);
                    ("Gold", 4096)]
                   "count_max_stars"))
    + earned (tracker_entry env "Pull Shark"
                (Badge.Build "Opened a pull request that has been merged"
                   [("Default", 2); ("Bronze", 16); ("Silver", 128);
                    ("Gold", 1024)]
                   "count_merged_prs")).
Proof.
  split; [reflexivity|].
  rewrite earned_count_sum, get_badge_progress_entries.
  cbv [badges map fold_right fst snd].
  repeat match goal with
         | |- context [earned (tracker_entry env ?n ?i)] =>
             lazymatch goal with
             | H : earned (tracker_entry env n i) = 0 |- _ => fail
             | _ =>
                 assert (earned (tracker_entry env n i) = 0)
                   by (unfold earned;
                       rewrite (tracker_entry_unobservable env n i eq_refl eq_refl);
                       reflexivity)
             end
         end.
  repeat match goal with
         | |- context [earned ?e] =>
             lazymatch goal with
             | H : 0 <= earned e <= 1 |- _ => fail
             | _ => pose proof (earned_bounds e)
             end
         end.
  lia.
Qed.

(** ** The plan the orchestrator makes from the tracker's progress *)

Lemma tracker_lookup (env : Environment) (badge_name : string)
    (badge_info : Badge.info) :
  Dict.get badges badge_name = Some badge_info ->
  exists e,
    Dict.get (get_badge_progress env) badge_name = Some e /\
    e = tracker_entry env badge_name badge_info /\
    (str_in (Badge.check_method badge_info) unobservable = true ->
     truthy (Progress.achieved_tier e) = false).
Proof.
  intros Hb. exists (tracker_entry env badge_name badge_info).
  split; [|split; [reflexivity|]].
  - rewrite get_badge_progress_get, Hb. reflexivity.
  - apply tracker_entry_unobservable, Hb.
Qed.

Lemma in_bucket_entry (progress : Dict.t Progress.entry) (b : bucket)
    (badge_name : string) (e : Progress.entry) :
  Dict.get progress badge_name = Some e ->
  in_bucket progress b badge_name
  = bucket_eqb b (if truthy (Progress.achieved_tier e)
                  then Completed else capability badge_name).
Proof. intros H. unfold in_bucket, bucket_of. now rewrite H. Qed.

Lemma filter_cons_app {A} (f : A -> bool) (x : A) (l : list A) :
  filter f (x :: l) = (if f x then [x] else []) ++ filter f l.
Proof. simpl. now destruct (f x). Qed.

(** Names the nine entries of the tracker's progress and rewrites the
    membership tests of the planner's loop with them. *)
Ltac name_entries env b :=
  destruct (tracker_lookup env "Quickdraw" _ eq_refl) as (qd & Hqd & _ & Uqd);
  destruct (tracker_lookup env "YOLO" _ eq_refl) as (yo & Hyo & _ & Uyo);
  destruct (tracker_lookup env "Public Sponsor" _ eq_refl)
    as (ps & Hps & _ & Ups);
  destruct (tracker_lookup env "Heart On Your Sleeve" _ eq_refl)
    as (ho & Hho & _ & _);
  destruct (tracker_lookup env "Open Sourcerer" _ eq_refl)
    as (os & Hos & _ & _);
  destruct (tracker_lookup env "Pair Extraordinaire" _ eq_refl)
    as (pe & Hpe & _ & Upe);
  destruct (tracker_lookup env "Pull Shark" _ eq_refl) as (sh & Hsh & _ & _);
  destruct (tracker_lookup env "Galaxy Brain" _ eq_refl)
    as (gb & Hgb & _ & Ugb);
  destruct (tracker_lookup env "Starstruck" _ eq_refl) as (st & Hst & _ & _);
  specialize (Uqd eq_refl); specialize (Uyo eq_refl);
  specialize (Ups eq_refl); specialize (Upe eq_refl);
  specialize (Ugb eq_refl);
  unfold get_earning_plan; rewrite plan_order_of_loop;
  unfold earning_order; rewrite !filter_cons_app;
  rewrite (in_bucket_entry _ b _ _ Hqd), (in_bucket_entry _ b _ _ Hyo),
    (in_bucket_entry _ b _ _ Hps), (in_bucket_entry _ b _ _ Hho),
    (in_bucket_entry _ b _ _ Hos), (in_bucket_entry _ b _ _ Hpe),
    (in_bucket_entry _ b _ _ Hsh), (in_bucket_entry _ b _ _ Hgb),
    (in_bucket_entry _ b _ _ Hst);
  rewrite Uqd, Uyo, Ups, Upe, Ugb;
  clear Hqd Hyo Hps Hho Hos Hpe Hsh Hgb Hst Uqd Uyo Ups Upe Ugb;
  destruct (truthy (Progress.achieved_tier ho)),
    (truthy (Progress.achieved_tier os)),
    (truthy (Progress.achieved_tier sh)),
    (truthy (Progress.achieved_tier st)).

(** The immediate bucket of a plan made from the tracker's progress. *)
Lemma tracker_immediate (env : Environment) :
  bucket_names (get_earning_plan env) Immediate = ["Quickdraw"; "YOLO"].
Proof. name_entries env Immediate; reflexivity. Qed.

(** X5: in every plan made from the tracker's progress the immediate
    bucket is Quickdraw, YOLO and the quick bucket is Public Sponsor,
    whatever the service holds and however often the workflows have run;
    Pair Extraordinaire stays in the short-term bucket and Galaxy Brain in
    the long-term one; and only Heart On Your Sleeve, Open Sourcerer, Pull
    Shark and Starstruck can stand in the completed bucket. *)
Theorem X5_plan_always_automates (env : Environment) :
  bucket_names (get_earning_plan env) Immediate = ["Quickdraw"; "YOLO"] /\
  bucket_names (get_earning_plan env) Quick = ["Public Sponsor"] /\
  In "Pair Extraordinaire" (bucket_names (get_earning_plan env) ShortTerm) /\
  In "Galaxy Brain" (bucket_names (get_earning_plan env) LongTerm) /\
  forall badge_name,
    In badge_name (bucket_names (get_earning_plan env) Completed) ->
    In badge_name
      ["Heart On Your Sleeve"; "Open Sourcerer"; "Pull Shark"; "Starstruck"].
Proof.
  split; [|split; [|split; [|split]]].
  - apply tracker_immediate.
  - name_entries env Quick; reflexivity.
  - name_entries env ShortTerm; simpl; tauto.
  - name_entries env LongTerm; simpl; tauto.
  - intros badge_name. name_entries env Completed; simpl; tauto.
Qed.

Lemma length_filter_sum (f : string -> bool) (l : list string) :
  Z.of_nat (List.length (filter f l))
  = fold_right (fun x s => (if f x then 1 else 0) + s) 0 l.
Proof.
  induction l as [|x l IH]; simpl; [reflexivity|].
  destruct (f x); simpl List.length; lia.
Qed.

(** X6: the number of badges the orchestrator counts as earned when it
    verifies the progress is the number of badges its plan lists as
    completed, when both read the service in the same state. *)
Theorem X6_earned_count_is_completed (env : Environment) :
  Summary.earned_count (get_badge_progress env)
  = Z.of_nat (List.length (Plan.completed (get_earning_plan env))).
Proof.
  transitivity
    (Z.of_nat (List.length (bucket_names (get_earning_plan env) Completed))).
  2: { unfold bucket_names, items. now rewrite length_map. }
  unfold get_earning_plan. rewrite plan_order_of_loop, length_filter_sum.
  cbv [fold_right earning_order].
  destruct (tracker_lookup env "Quickdraw" _ eq_refl) as (qd & Hqd & Eqd & _);
  destruct (tracker_lookup env "YOLO" _ eq_refl) as (yo & Hyo & Eyo & _);
  destruct (tracker_lookup env "Public Sponsor" _ eq_refl)
    as (ps & Hps & Eps & _);
  destruct (tracker_lookup env "Heart On Your Sleeve" _ eq_refl)
    as (ho & Hho & Eho & _);
  destruct (tracker_lookup env "Open Sourcerer" _ eq_refl)
    as (os & Hos & Eos & _);
  destruct (tracker_lookup env "Pair Extraordinaire" _ eq_refl)
    as (pe & Hpe & Epe & _);
  destruct (tracker_lookup env "Pull Shark" _ eq_refl) as (sh & Hsh & Esh & _);
  destruct (tracker_lookup env "Galaxy Brain" _ eq_refl)
    as (gb & Hgb & Egb & _);
  destruct (tracker_lookup env "Starstruck" _ eq_refl) as (st & Hst & Est & _).
  rewrite (in_bucket_entry _ Completed _ _ Hqd),
    (in_bucket_entry _ Completed _ _ Hyo),
    (in_bucket_entry _ Completed _ _ Hps),
    (in_bucket_entry _ Completed _ _ Hho),
    (in_bucket_entry _ Completed _ _ Hos),
    (in_bucket_entry _ Completed _ _ Hpe),
    (in_bucket_entry _ Completed _ _ Hsh),
    (in_bucket_entry _ Completed _ _ Hgb),
    (in_bucket_entry _ Completed _ _ Hst).
  clear Hqd Hyo Hps Hho Hos Hpe Hsh Hgb Hst.
  rewrite earned_count_sum, get_badge_progress_entries.
  cbv [badges map fold_right fst snd].
  rewrite <- Eqd, <- Eyo, <- Eps, <- Eho, <- Eos, <- Epe, <- Esh, <- Egb,
    <- Est.
  clear. unfold earned.
  destruct (truthy (Progress.achieved_tier qd)),
    (truthy (Progress.achieved_tier yo)),
    (truthy (Progress.achieved_tier ps)),
    (truthy (Progress.achieved_tier ho)),
    (truthy (Progress.achieved_tier os)),
    (truthy (Progress.achieved_tier pe)),
    (truthy (Progress.achieved_tier sh)),
    (truthy (Progress.achieved_tier gb)),
    (truthy (Progress.achieved_tier st)); reflexivity.
Qed.

(** ** The next easiest targets of the summary *)

Lemma next_targets_from (progress : Dict.t Progress.entry)
    (acc : list Summary.target) (x : Summary.target) :
  In x
    (fold_left
       (fun next_targets '(badge_name, info) =>
          match Progress.next_requirement info with
          | Some next =>
              if negb (truthy (Progress.error info))
              then next_targets
                   ++ [(badge_name, Next.needed next, Next.tier next)]
              else next_targets
          | None => next_targets
          end)
       progress acc)
  <-> In x acc \/
      exists badge_name info next,
        In (badge_name, info) progress /\
        Progress.next_requirement info = Some next /\
        truthy (Progress.error info) = false /\
        x = (badge_name, Next.needed next, Next.tier next).
Proof.
  revert acc. induction progress as [|[n info] l IH]; intros acc; simpl.
  - split; [tauto|]. intros [H|(? & ? & ? & [] & _)]. exact H.
  - rewrite IH. split.
    + intros [H|(n' & i' & nx & Hin & H1 & H2 & H3)].
      * destruct (Progress.next_requirement info) as [nx|] eqn:En;
          [|now left].
        destruct (truthy (Progress.error info)) eqn:Ee; simpl in H;
          [now left|].
        apply in_app_or in H. destruct H as [H|[<-|[]]]; [now left|].
        right. exists n, info, nx. auto.
      * right. exists n', i', nx. auto.
    + intros [H|(n' & i' & nx & [E|Hin] & H1 & H2 & H3)].
      * left. destruct (Progress.next_requirement info); [|exact H].
        destruct (truthy (Progress.error info)); simpl; [exact H|].
        apply in_or_app. now left.
      * inversion E; subst. left. rewrite H1, H2. simpl.
        apply in_or_app. right. now left.
      * right. exists n', i', nx. auto.
Qed.

Lemma insert_target_in (x y : Summary.target) (l : list Summary.target) :
  In y (Summary.insert_target x l) <-> y = x \/ In y l.
Proof.
  induction l as [|z l IH]; simpl.
  - intuition.
  - destruct (Summary.needed_of x <=? Summary.needed_of z); simpl;
      rewrite ?IH; intuition.
Qed.

Lemma sort_targets_in (y : Summary.target) (l : list Summary.target) :
  In y (Summary.sort_targets l) <-> In y l.
Proof.
  unfold Summary.sort_targets. induction l as [|x l IH]; simpl; [tauto|].
  rewrite insert_target_in, IH. intuition.
Qed.

Lemma insert_target_length (x : Summary.target) (l : list Summary.target) :
  List.length (Summary.insert_target x l) = S (List.length l).
Proof.
  induction l as [|z l IH]; simpl; [reflexivity|].
  destruct (Summary.needed_of x <=? Summary.needed_of z); simpl; congruence.
Qed.

Lemma sort_targets_length (l : list Summary.target) :
  List.length (Summary.sort_targets l) = List.length l.
Proof.
  unfold Summary.sort_targets. induction l as [|x l IH]; simpl; [reflexivity|].
  now rewrite insert_target_length, IH.
Qed.

Lemma insert_target_sorted (x : Summary.target) (l : list Summary.target) :
  Sorted (fun a b => Summary.needed_of a <= Summary.needed_of b) l ->
  Sorted (fun a b => Summary.needed_of a <= Summary.needed_of b)
    (Summary.insert_target x l).
Proof.
  induction 1 as [|y l Hl IH Hy]; simpl; [repeat constructor|].
  destruct (Z.leb_spec (Summary.needed_of x) (Summary.needed_of y))
    as [Hle|Hgt].
  - repeat constructor; assumption.
  - constructor; [exact IH|].
    destruct l as [|z l']; simpl.
    + constructor. lia.
    + destruct (Z.leb_spec (Summary.needed_of x) (Summary.needed_of z));
        constructor; try lia.
      now inversion Hy.
Qed.

Lemma sort_targets_sorted (l : list Summary.target) :
  StronglySorted (fun a b => Summary.needed_of a <= Summary.needed_of b)
    (Summary.sort_targets l).
Proof.
  apply Sorted_StronglySorted; [intros a b c; lia|].
  unfold Summary.sort_targets. induction l as [|x l IH]; simpl; [constructor|].
  apply insert_target_sorted, IH.
Qed.

Lemma strongly_sorted_app {A} (R : A -> A -> Prop) (l1 l2 : list A) :
  StronglySorted R (l1 ++ l2) ->
  StronglySorted R l1 /\ forall x y, In x l1 -> In y l2 -> R x y.
Proof.
  induction l1 as [|a l1 IH]; simpl; intros H.
  - split; [constructor|intros x y []].
  - apply StronglySorted_inv in H. destruct H as [H Ha].
    destruct (IH H) as [Hs Hb]. rewrite Forall_forall in Ha. split.
    + constructor; [exact Hs|]. apply Forall_forall. intros z Hz.
      apply Ha, in_or_app. now left.
    + intros x y [<-|Hx] Hy; [apply Ha, in_or_app; now right|auto].
Qed.

(** X7: the targets the summary prints as next easiest are at most three
    entries that have a next requirement and no error text, each with the
    needed count and tier of that requirement; they are in ascending order
    of the needed count, and every entry with a next requirement that is
    not printed needs at least as much as each printed one. *)
Theorem X7_easiest_targets (progress : Dict.t Progress.entry) :
  List.length (Summary.easiest_targets progress)
  = Nat.min 3 (List.length (Summary.next_targets progress)) /\
  StronglySorted (fun a b => Summary.needed_of a <= Summary.needed_of b)
    (Summary.easiest_targets progress) /\
  (forall x,
      In x (Summary.next_targets progress) <->
      exists badge_name info next,
        In (badge_name, info) progress /\
        Progress.next_requirement info = Some next /\
        truthy (Progress.error info) = false /\
        x = (badge_name, Next.needed next, Next.tier next)) /\
  (forall x, In x (Summary.easiest_targets progress) ->
             In x (Summary.next_targets progress)) /\
  (forall x y,
      In x (Summary.easiest_targets progress) ->
      In y (Summary.next_targets progress) ->
      ~ In y (Summary.easiest_targets progress) ->
      Summary.needed_of x <= Summary.needed_of y).
Proof.
  unfold Summary.easiest_targets.
  pose proof (sort_targets_sorted (Summary.next_targets progress)) as Hs.
  rewrite <- (firstn_skipn 3) in Hs.
  apply strongly_sorted_app in Hs. destruct Hs as [Hs Hb].
  split; [|split; [|split; [|split]]].
  - now rewrite length_firstn, sort_targets_length.
  - exact Hs.
  - intros x. unfold Summary.next_targets. rewrite next_targets_from.
    simpl. tauto.
  - intros x Hx. apply sort_targets_in.
    rewrite <- (firstn_skipn 3). apply in_or_app. now left.
  - intros x y Hx Hy Hny. apply (Hb x y Hx).
    apply sort_targets_in in Hy. rewrite <- (firstn_skipn 3) in Hy.
    apply in_app_or in Hy. tauto.
Qed.

(** ** The table of the report *)

Lemma last_char_append (a b : string) :
  b <> EmptyString -> last_char (a ++ b)%string = last_char b.
Proof.
  intros Hb. induction a as [|c a IH]; simpl; [reflexivity|].
  rewrite <- IH. destruct (a ++ b)%string eqn:E; [|reflexivity].
  destruct a; simpl in E; [contradiction|discriminate].
Qed.

Lemma prefix_whole (n : nat) (s : string) :
  (String.length (Report.prefix n s) < n)%nat -> Report.prefix n s = s.
Proof.
  unfold Report.prefix. revert s.
  induction n as [|n IH]; intros s H; [inversion H|].
  destruct s as [|c s]; simpl in *; [reflexivity|].
  f_equal. apply IH. lia.
Qed.

Lemma formatted_goal_differs (tier digits : string) :
  Report.prefix 25 (tier ++ " (" ++ digits ++ " more)")%string
  <> "Max achieved!".
Proof.
  intros H.
  assert (Hlen : (String.length
                    (Report.prefix 25
                       (tier ++ " (" ++ digits ++ " more)")%string)
                  < 25)%nat).
  { rewrite H. simpl. lia. }
  rewrite (prefix_whole _ _ Hlen) in H.
  apply (f_equal last_char) in H.
  rewrite last_char_append in H by (simpl; discriminate).
  rewrite last_char_append in H by (destruct digits; simpl; discriminate).
  rewrite last_char_append in H by (simpl; discriminate).
  discriminate.
Qed.

Lemma table_data_from (progress : Dict.t Progress.entry)
    (rows : list Report.row) :
  fold_left
    (fun table_data '(badge_name, info) =>
       table_data ++ [Report.table_row badge_name info])
    progress rows
  = rows ++ map (fun x => Report.table_row (fst x) (snd x)) progress.
Proof.
  revert rows. induction progress as [|[n i] l IH]; intros rows; simpl.
  - now rewrite app_nil_r.
  - now rewrite IH, <- app_assoc.
Qed.

(** X8: the table of the report has one row per entry, in the order of
    the progress dictionary.  A row reads "Max achieved!" as its next goal
    exactly when the entry has no next requirement, and shows the cross
    exactly when the entry has no achieved tier; so the row of a badge
    whose check raised shows the cross, the count 0, the tier "None" and
    the next goal "Max achieved!". *)
Theorem X8_table_rows (progress : Dict.t Progress.entry) :
  Report.table_data progress
  = map (fun x => Report.table_row (fst x) (snd x)) progress /\
  (forall badge_name info,
      Report.next_goal (Report.table_row badge_name info) = "Max achieved!"
      <-> Progress.next_requirement info = None) /\
  (forall badge_name info,
      Report.status (Report.table_row badge_name info) = "❌"
      <-> truthy (Progress.achieved_tier info) = false) /\
  (forall badge_name badge_info msg,
      Report.table_row badge_name (badge_entry badge_info (Raised msg))
      = Report.Build "❌" (Report.prefix 20 badge_name) 0 "None"
          "Max achieved!").
Proof.
  split; [|split; [|split]].
  - unfold Report.table_data. now rewrite table_data_from.
  - intros n info. unfold Report.table_row. simpl.
    destruct (Progress.next_requirement info) as [next|].
    + split; [|discriminate]. intros H.
      now apply formatted_goal_differs in H.
    + split; reflexivity.
  - intros n info. unfold Report.table_row. simpl.
    destruct (truthy (Progress.achieved_tier info)); [|split; reflexivity].
    split; [|discriminate].
    destruct (Progress.achieved_tier info) as [t|]; [|discriminate].
    destruct (String.eqb_spec t "Gold") as [->|_]; [discriminate|].
    destruct (String.eqb_spec t "Silver") as [->|_]; [discriminate|].
    destruct (String.eqb_spec t "Bronze") as [->|_]; [discriminate|].
    intros H.
    repeat match type of H with
           | context [match ?x with _ => _ end] => destruct x
           end; discriminate.
  - reflexivity.
Qed.

(** ** More on the timed workflows *)

(** Puts the facts of the context back into the goal. *)
Ltac revert_facts :=
  repeat match goal with
         | H : ?T |- _ =>
             match type of T with Prop => revert H end
         end.

(** X9: each workflow of the orchestrator returns [True] exactly when no
    call raised; then it has deleted the repository by one call and
    nothing it created remains.  Whatever raises, a run tries to create a
    repository once, and tries to delete it at most twice. *)
Theorem X9_workflow_success (o : Oracle) :
  (returned (run _earn_quickdraw_badge o) = Some true <->
   raised_somewhere (events (run _earn_quickdraw_badge o)) = false) /\
  (returned (run _earn_yolo_badge o) = Some true <->
   raised_somewhere (events (run _earn_yolo_badge o)) = false) /\
  (returned (run _earn_quickdraw_badge o) = Some true ->
   attempts repo_delete (events (run _earn_quickdraw_badge o)) = 1%nat /\
   remaining [] (events (run _earn_quickdraw_badge o)) = []) /\
  (returned (run _earn_yolo_badge o) = Some true ->
   attempts repo_delete (events (run _earn_yolo_badge o)) = 1%nat /\
   remaining [] (events (run _earn_yolo_badge o)) = []) /\
  attempts create_repo (events (run _earn_quickdraw_badge o)) = 1%nat /\
  attempts create_repo (events (run _earn_yolo_badge o)) = 1%nat /\
  (attempts repo_delete (events (run _earn_quickdraw_badge o)) <= 2)%nat /\
  (attempts repo_delete (events (run _earn_yolo_badge o)) <= 2)%nat.
Proof.
  repeat split; revert_facts; run_workflow o; intros; simpl in *;
    try reflexivity; try congruence; try lia.
Qed.

(** X10: the fast-close workflow tries to close the issue only after the
    repository and the issue were created and the 30 seconds slept, and the
    unreviewed-merge workflow tries to merge only after the repository, the
    branch, the file and the pull request were created; a run that did not
    get that far makes neither call. *)
Theorem X10_finalize_after_provisioning (o : Oracle) :
  (attempts issue_edit_closed (events (run _earn_quickdraw_badge o)) <> 0%nat ->
   exists rest,
     events (run _earn_quickdraw_badge o)
     = Call_ok create_repo :: Call_ok create_issue :: Sleep 30 :: rest /\
     attempts issue_edit_closed rest = 1%nat) /\
  (attempts pr_merge (events (run _earn_yolo_badge o)) <> 0%nat ->
   exists rest,
     events (run _earn_yolo_badge o)
     = Call_ok create_repo :: Call_ok get_branch :: Call_ok create_git_ref
       :: Call_ok create_file :: Call_ok create_pull :: rest /\
     attempts pr_merge rest = 1%nat) /\
  (sleeps 30 (events (run _earn_quickdraw_badge o)) <> 0%nat ->
   In (Call_ok create_issue) (events (run _earn_quickdraw_badge o))).
Proof.
  repeat split; revert_facts; run_workflow o; intros H; simpl in *;
    try congruence; try (eexists; split; reflexivity); tauto.
Qed.

(** X11: the stand-alone fast-close routine never creates or deletes a
    repository and always returns [True] or [False]: [True] exactly when
    no call raised and [time.sleep] took the delay.  When the delay is
    refused, as every negative one is, the routine posts no comment and
    does not try to close: with no call raising, the issue is created and
    left open.  It tries to close the issue only after the closing comment
    was posted: when posting the comment raises, the issue is created and
    left open. *)
Theorem X11_quick_issue_routine (clock : Clock) (delay_seconds : option Z)
    (o : Oracle) :
  attempts create_repo (events (routine_run clock delay_seconds o)) = 0%nat /\
  attempts repo_delete (events (routine_run clock delay_seconds o)) = 0%nat /\
  (returned (routine_run clock delay_seconds o) = Some true <->
   raised_somewhere (events (routine_run clock delay_seconds o)) = false /\
   taken clock (delay_of delay_seconds) = true) /\
  (returned (routine_run clock delay_seconds o) = Some true \/
   returned (routine_run clock delay_seconds o) = Some false) /\
  (taken clock (delay_of delay_seconds) = false ->
   attempts issue_create_comment (events (routine_run clock delay_seconds o))
   = 0%nat /\
   attempts issue_edit_closed (events (routine_run clock delay_seconds o))
   = 0%nat /\
   (forall seconds,
       ~ In (Sleep seconds) (events (routine_run clock delay_seconds o))) /\
   (raised_somewhere (events (routine_run clock delay_seconds o)) = false ->
    events (routine_run clock delay_seconds o)
    = [Call_ok get_repo; Call_ok create_issue] /\
    remaining [] (events (routine_run clock delay_seconds o))
    = [issue_handle])) /\
  (delay_of delay_seconds < 0 ->
   taken clock (delay_of delay_seconds) = false) /\
  (In (Call_raised issue_create_comment)
     (events (routine_run clock delay_seconds o)) ->
   created (events (routine_run clock delay_seconds o)) = [issue_handle] /\
   attempts issue_edit_closed (events (routine_run clock delay_seconds o))
   = 0%nat) /\
  (attempts issue_edit_closed (events (routine_run clock delay_seconds o))
   <> 0%nat ->
   In (Call_ok issue_create_comment)
     (events (routine_run clock delay_seconds o))).
Proof.
  assert (Hneg : delay_of delay_seconds < 0 ->
                 taken clock (delay_of delay_seconds) = false).
  { intros Hneg. unfold taken. apply Z.leb_gt in Hneg. now rewrite Hneg. }
  revert Hneg.
  unfold routine_run, QuickdrawAutomation.create_and_close_issue_quickly,
    sleep_for.
  cbv zeta. fold (delay_of delay_seconds).
  generalize (taken clock (delay_of delay_seconds)).
  generalize (delay_of delay_seconds).
  intros d b Hneg.
  split; [|split; [|split; [|split; [|split; [|split; [exact Hneg|]]]]]];
    clear Hneg; destruct b;
    repeat split; revert_facts; run_workflow o; intros; simpl in *;
    try reflexivity; try discriminate; try congruence; try tauto;
    repeat match goal with
           | H : _ /\ _ |- _ => destruct H
           | H : _ \/ _ |- _ => destruct H; try discriminate
           end;
    try discriminate; try tauto;
    try (intros Hin; repeat (destruct Hin as [Hin|Hin]; [discriminate|]);
         exact Hin).
Qed.

(** ** Running the immediate badges *)

Import Orchestration.

(** What the service answers to the next call of a workflow started
    after the events [h]. *)
Ltac next_call_from o :=
  match goal with
  | |- context [o ?history ?c] =>
      let E := fresh "E" in
      destruct (o history c) eqn:E; simpl; rewrite <- ?app_assoc; simpl
  end.

Ltac invoke_workflow o :=
  unfold invoke, events, returned, run, shift, _earn_quickdraw_badge,
    _earn_yolo_badge, try_except, bind, request, sleep, bind_repo,
    repo_in_locals, ret, start;
  simpl; rewrite ?app_nil_r; repeat next_call_from o; reflexivity.

(** A workflow called in the middle of a run does what it does on the
    service as it answers from then on. *)
Lemma invoke_quickdraw (o : Oracle) (s : frame) :
  invoke _earn_quickdraw_badge o s
  = (Run.Build
       (trace s ++ events (run _earn_quickdraw_badge (shift o (trace s))))
       (repo_bound s),
     inl match returned (run _earn_quickdraw_badge (shift o (trace s))) with
         | Some success => success
         | None => false
         end).
Proof. destruct s as [h rb]. invoke_workflow o. Qed.

Lemma invoke_yolo (o : Oracle) (s : frame) :
  invoke _earn_yolo_badge o s
  = (Run.Build
       (trace s ++ events (run _earn_yolo_badge (shift o (trace s))))
       (repo_bound s),
     inl match returned (run _earn_yolo_badge (shift o (trace s))) with
         | Some success => success
         | None => false
         end).
Proof. destruct s as [h rb]. invoke_workflow o. Qed.

Lemma attempts_app (c : call) (t1 t2 : list event) :
  attempts c (t1 ++ t2) = (attempts c t1 + attempts c t2)%nat.
Proof.
  induction t1 as [|[c'|c'|s] t1 IH]; simpl; rewrite ?IH; lia.
Qed.

Lemma sleeps_app (seconds : Z) (t1 t2 : list event) :
  sleeps seconds (t1 ++ t2) = (sleeps seconds t1 + sleeps seconds t2)%nat.
Proof.
  induction t1 as [|[c'|c'|s] t1 IH]; simpl; rewrite ?IH; lia.
Qed.

(** Each workflow tries once to create a repository and never sleeps for
    two seconds. *)
Lemma workflow_counts (o : Oracle) :
  attempts create_repo (events (run _earn_quickdraw_badge o)) = 1%nat /\
  sleeps 2 (events (run _earn_quickdraw_badge o)) = 0%nat /\
  attempts create_repo (events (run _earn_yolo_badge o)) = 1%nat /\
  sleeps 2 (events (run _earn_yolo_badge o)) = 0%nat.
Proof. repeat split; run_workflow o; reflexivity. Qed.

(** Neither workflow sleeps for five seconds. *)
Lemma workflow_no_long_sleep (o : Oracle) :
  sleeps 5 (events (run _earn_quickdraw_badge o)) = 0%nat /\
  sleeps 5 (events (run _earn_yolo_badge o)) = 0%nat.
Proof. split; run_workflow o; reflexivity. Qed.

Lemma execute_loop_spec (immediate : list Item.t) (earned_badges : list string)
    (o : Oracle) (s : frame) :
  exists extra t,
    execute_loop immediate earned_badges o s
    = (Run.Build (trace s ++ t) (repo_bound s), inl (earned_badges ++ extra)) /\
    attempts create_repo t = List.length (automated immediate) /\
    sleeps 2 t = List.length (automated immediate) /\
    sleeps 5 t = 0%nat /\
    (List.length extra <= List.length (automated immediate))%nat /\
    forall n, In n extra -> In n (automated immediate).
Proof.
  revert earned_badges s.
  induction immediate as [|badge rest IH]; intros acc s.
  - exists [], []. simpl. unfold ret. rewrite !app_nil_r.
    destruct s; repeat split; auto.
  - unfold automated. simpl.
    destruct (String.eqb_spec (Item.name badge) "Quickdraw") as [Eq|Nq].
    + simpl. unfold bind at 1, try_except, bind at 1.
      rewrite invoke_quickdraw. unfold ret at 1, bind at 1, sleep at 1.
      simpl trace. simpl repo_bound.
      set (r := run _earn_quickdraw_badge (shift o (trace s))).
      destruct (workflow_counts (shift o (trace s))) as (Hc & Hs & _ & _).
      destruct (workflow_no_long_sleep (shift o (trace s))) as (Hz & _).
      fold r in Hc, Hs, Hz.
      match goal with
      | |- context [execute_loop rest ?a o ?s'] =>
          destruct (IH a s') as (extra & t & -> & Ha & Hb & H5 & Hl & Hin)
      end.
      simpl trace. simpl repo_bound.
      destruct (match returned r with Some b => b | None => false end).
      * exists (Item.name badge :: extra), (events r ++ Sleep 2 :: t).
        rewrite <- !app_assoc. simpl. split; [reflexivity|].
        rewrite attempts_app, !sleeps_app, Hc, Hs, Hz. simpl.
        rewrite Ha, Hb, H5. fold (automated rest).
        split; [reflexivity|]. split; [reflexivity|]. split; [reflexivity|].
        split; [lia|].
        intros n [<-|Hn]; [left; reflexivity|right; apply Hin, Hn].
      * exists extra, (events r ++ Sleep 2 :: t).
        rewrite <- !app_assoc. simpl. split; [reflexivity|].
        rewrite attempts_app, !sleeps_app, Hc, Hs, Hz. simpl.
        rewrite Ha, Hb, H5. fold (automated rest).
        split; [reflexivity|]. split; [reflexivity|]. split; [reflexivity|].
        split; [lia|].
        intros n Hn. right. apply Hin, Hn.
    + destruct (String.eqb_spec (Item.name badge) "YOLO") as [Ey|Ny].
      * simpl. unfold bind at 1, try_except, bind at 1.
        rewrite invoke_yolo. unfold ret at 1, bind at 1, sleep at 1.
        simpl trace. simpl repo_bound.
        set (r := run _earn_yolo_badge (shift o (trace s))).
        destruct (workflow_counts (shift o (trace s))) as (_ & _ & Hc & Hs).
        destruct (workflow_no_long_sleep (shift o (trace s))) as (_ & Hz).
        fold r in Hc, Hs, Hz.
        match goal with
        | |- context [execute_loop rest ?a o ?s'] =>
            destruct (IH a s') as (extra & t & -> & Ha & Hb & H5 & Hl & Hin)
        end.
        simpl trace. simpl repo_bound.
        destruct (match returned r with Some b => b | None => false end).
        -- exists (Item.name badge :: extra), (events r ++ Sleep 2 :: t).
           rewrite <- !app_assoc. simpl. split; [reflexivity|].
           rewrite attempts_app, !sleeps_app, Hc, Hs, Hz. simpl.
           rewrite Ha, Hb, H5. fold (automated rest).
           split; [reflexivity|]. split; [reflexivity|]. split; [reflexivity|].
           split; [lia|].
           intros n [<-|Hn]; [left; reflexivity|right; apply Hin, Hn].
        -- exists extra, (events r ++ Sleep 2 :: t).
           rewrite <- !app_assoc. simpl. split; [reflexivity|].
           rewrite attempts_app, !sleeps_app, Hc, Hs, Hz. simpl.
           rewrite Ha, Hb, H5. fold (automated rest).
           split; [reflexivity|]. split; [reflexivity|]. split; [reflexivity|].
           split; [lia|].
           intros n Hn. right. apply Hin, Hn.
      * simpl. apply IH.
Qed.

(** X12: [execute_immediate_badges] returns for every plan and whatever
    the service answers; it tries once to create a repository, and then
    sleeps two seconds, for every listed badge named Quickdraw or YOLO,
    also after a workflow that failed, and does neither for a badge of
    another name; the badges it returns as earned are among those it
    attempted. *)
Theorem X12_execute_immediate_badges (plan : Plan.t) (o : Oracle) :
  exists earned_badges,
    returned (run (execute_immediate_badges plan) o) = Some earned_badges /\
    attempts create_repo (events (run (execute_immediate_badges plan) o))
    = List.length (automated (Plan.immediate plan)) /\
    sleeps 2 (events (run (execute_immediate_badges plan) o))
    = List.length (automated (Plan.immediate plan)) /\
    (List.length earned_badges
     <= List.length (automated (Plan.immediate plan)))%nat /\
    forall n, In n earned_badges ->
      In n (map Item.name (Plan.immediate plan)) /\
      (n = "Quickdraw" \/ n = "YOLO").
Proof.
  unfold execute_immediate_badges, run, events, returned.
  destruct (execute_loop_spec (Plan.immediate plan) [] o start)
    as (extra & t & -> & Ha & Hb & _ & Hl & Hin).
  exists extra. simpl. repeat split; try assumption.
  - apply Hin in H. unfold automated in H. apply filter_In in H. tauto.
  - apply Hin in H. unfold automated in H. apply filter_In in H.
    destruct H as [_ H]. apply orb_prop in H.
    destruct H as [H|H]; apply String.eqb_eq in H; tauto.
Qed.

Lemma immediate_items (plan : Plan.t) (a b : string) :
  bucket_names plan Immediate = [a; b] ->
  exists x y,
    Plan.immediate plan = [x; y] /\ Item.name x = a /\ Item.name y = b.
Proof.
  unfold bucket_names, items.
  destruct (Plan.immediate plan) as [|i1 [|i2 [|i3 l]]]; try discriminate.
  intros H. injection H as H1 H2. exists i1, i2. auto.
Qed.

(** The two items of the immediate list of a plan made from the tracker's
    progress. *)
Lemma tracker_immediate_items (env : Environment) :
  exists quickdraw yolo,
    Plan.immediate (get_earning_plan env) = [quickdraw; yolo] /\
    Item.name quickdraw = "Quickdraw" /\ Item.name yolo = "YOLO".
Proof. exact (immediate_items _ _ _ (tracker_immediate env)). Qed.

(** X13: on a plan made from the tracker's progress and a service on
    which no call raises, [execute_immediate_badges] runs the fast-close
    workflow, sleeps two seconds, runs the unreviewed-merge workflow,
    sleeps two seconds and returns both badges as earned; nothing the two
    workflows created remains. *)
Theorem X13_execute_plan_all_succeed (env : Environment) (o : Oracle) :
  (forall history c, o history c = false) ->
  run (execute_immediate_badges (get_earning_plan env)) o
  = ([Call_ok create_repo; Call_ok create_issue; Sleep 30;
      Call_ok issue_edit_closed; Call_ok repo_delete; Sleep 2;
      Call_ok create_repo; Call_ok get_branch; Call_ok create_git_ref;
      Call_ok create_file; Call_ok create_pull; Call_ok pr_merge;
      Call_ok repo_delete; Sleep 2],
     Some ["Quickdraw"; "YOLO"]) /\
  remaining []
    (events (run (execute_immediate_badges (get_earning_plan env)) o)) = [].
Proof.
  intros Hok.
  destruct (tracker_immediate_items env) as (i1 & i2 & Hi & H1 & H2).
  assert (E : run (execute_immediate_badges (get_earning_plan env)) o
              = ([Call_ok create_repo; Call_ok create_issue; Sleep 30;
                  Call_ok issue_edit_closed; Call_ok repo_delete; Sleep 2;
                  Call_ok create_repo; Call_ok get_branch;
                  Call_ok create_git_ref; Call_ok create_file;
                  Call_ok create_pull; Call_ok pr_merge;
                  Call_ok repo_delete; Sleep 2],
                 Some ["Quickdraw"; "YOLO"])).
  { unfold execute_immediate_badges. rewrite Hi.
    unfold run, execute_loop. rewrite H1, H2. simpl String.eqb. cbv iota.
    unfold invoke, _earn_quickdraw_badge, _earn_yolo_badge, try_except,
      bind, request, sleep, bind_repo, ret, start.
    simpl. now rewrite !Hok. }
  rewrite E. split; reflexivity.
Qed.

(** The service on which no call raises, and any state of the tracker's
    queries. *)
Lemma X13_execute_plan_all_succeed_witness :
  (forall history c, all_succeed history c = false) /\
  returned (run (execute_immediate_badges (get_earning_plan nothing_observed))
              all_succeed)
  = Some ["Quickdraw"; "YOLO"].
Proof.
  assert (Hok : forall history c, all_succeed history c = false)
    by reflexivity.
  split; [exact Hok|].
  destruct (X13_execute_plan_all_succeed nothing_observed all_succeed Hok)
    as [-> _].
  reflexivity.
Defined.

Lemma earn_all_run (execute verify : bool) (env env_after : Environment)
    (o : Oracle) :
  exists earned t,
    run (earn_all_body execute verify env env_after) o
    = ((if execute then t else []) ++ (if verify then [Sleep 5] else []),
       Some (if execute then earned else [],
             if verify then Some (get_badge_progress env_after) else None)) /\
    attempts create_repo t = 2%nat /\ sleeps 5 t = 0%nat.
Proof.
  destruct (tracker_immediate_items env) as (i1 & i2 & Hi & H1 & H2).
  destruct (execute_loop_spec [i1; i2] [] o start)
    as (extra & t & Hrun & Ha & _ & H5 & _ & _).
  assert (Hlen : List.length (automated [i1; i2]) = 2%nat).
  { unfold automated. simpl. rewrite H1, H2. reflexivity. }
  rewrite Hlen in Ha.
  exists extra, t. split; [|split; assumption].
  unfold earn_all_body, run, execute_immediate_badges. rewrite Hi.
  destruct execute.
  - cbv beta delta [bind]. rewrite Hrun.
    destruct verify; unfold verify_badge_progress, bind, sleep, ret; simpl;
      rewrite ?app_nil_r; reflexivity.
  - destruct verify; reflexivity.
Qed.

Lemma workflow_events_app (s1 s2 : list Orchestration.step) :
  workflow_events (s1 ++ s2) = workflow_events s1 ++ workflow_events s2.
Proof.
  induction s1 as [|[| |e] s1 IH]; simpl; now rewrite ?IH.
Qed.

Lemma workflow_events_map (t : list event) :
  workflow_events (map Workflow t) = t.
Proof.
  induction t as [|e t IH]; simpl; now rewrite ?IH.
Qed.

(** X14: the command [earn_all] ends with an exception exactly when a
    read of [user.login] raises, the orchestrator's or the tracker's, and
    then before any workflow is run.  Otherwise it returns, whatever the
    service answers to the workflows.  With [--execute] it tries to create
    two repositories, one per workflow, on every run, whatever the tracker
    reads and whatever was earned before; without it, it runs no workflow:
    it only reads the login and the progress.  With [--verify] it ends by
    sleeping five seconds and reading the progress anew. *)
Theorem X14_earn_all (execute verify : bool)
    (login tracker_login : option string) (env env_after : Environment)
    (o : Oracle) :
  (snd (earn_all execute verify login tracker_login env env_after o) = None
   <-> login = None \/ tracker_login = None) /\
  (login = None ->
   earn_all execute verify login tracker_login env env_after o
   = ([User_login], None)) /\
  (login <> None -> tracker_login = None ->
   earn_all execute verify login tracker_login env env_after o
   = ([User_login; Get_badge_progress], None)) /\
  (login <> None -> tracker_login <> None ->
   (exists earned final_progress,
       snd (earn_all execute verify login tracker_login env env_after o)
       = Some (earned, final_progress) /\
       (verify = true ->
        final_progress = Some (get_badge_progress env_after)) /\
       (verify = false -> final_progress = None) /\
       (execute = false -> earned = [])) /\
   attempts create_repo
     (workflow_events
        (fst (earn_all execute verify login tracker_login env env_after o)))
   = (if execute then 2 else 0)%nat /\
   sleeps 5
     (workflow_events
        (fst (earn_all execute verify login tracker_login env env_after o)))
   = (if verify then 1 else 0)%nat /\
   (execute = false ->
    fst (earn_all execute verify login tracker_login env env_after o)
    = [User_login; Get_badge_progress]
      ++ (if verify then [Workflow (Sleep 5); Get_badge_progress]
          else []))).
Proof.
  destruct (earn_all_run execute verify env env_after o)
    as (earned & t & E & Ha & H5).
  unfold earn_all. rewrite E.
  destruct login as [l|], tracker_login as [l'|]; simpl.
  - split; [split; [discriminate|intros [H|H]; discriminate]|].
    split; [discriminate|]. split; [discriminate|]. intros _ _.
    split; [|split; [|split]].
    + do 2 eexists. split; [reflexivity|].
      split; [intros ->; reflexivity|].
      split; intros ->; reflexivity.
    + rewrite workflow_events_app, workflow_events_map, attempts_app.
      destruct execute, verify; simpl; rewrite ?attempts_app; simpl; lia.
    + rewrite workflow_events_app, workflow_events_map, !sleeps_app.
      destruct execute, verify; simpl; lia.
    + intros ->. destruct verify; reflexivity.
  - split; [split; [auto|reflexivity]|].
    split; [discriminate|]. split; [reflexivity|]. intros _ H.
    now contradiction H.
  - split; [split; [auto|reflexivity]|].
    split; [reflexivity|]. split; [intros H; now contradiction H|].
    intros H. now contradiction H.
  - split; [split; [auto|reflexivity]|].
    split; [reflexivity|]. split; [intros H; now contradiction H|].
    intros H. now contradiction H.
Qed.

(** ** Choosing a repository for the fast-close routine *)

Import QuickdrawCli.

Lemma list_repos_spec (user_repos : paged Owned.repo) (repos : list Listing.t) :
  list_repos user_repos repos
  = repos
    ++ map listing_of
         (filter (fun repo => negb (Owned.private repo)) (yielded user_repos)).
Proof.
  revert repos.
  induction user_repos as [|repo rest IH|]; intros repos; simpl;
    rewrite ?app_nil_r; try reflexivity.
  destruct (Owned.private repo); simpl; rewrite IH; [reflexivity|].
  now rewrite <- app_assoc.
Qed.

(** X15: [find_own_repositories] lists the public repositories it was
    given before listing stopped or raised, in that order and no others,
    with their names, addresses and issue settings; a missing or empty
    description is listed as "No description", so that no listed
    description is empty; when the listing call itself raises the list is
    empty. *)
Theorem X15_find_own_repositories (user_repos : paged Owned.repo) :
  find_own_repositories None = [] /\
  find_own_repositories (Some user_repos)
  = map listing_of
      (filter (fun repo => negb (Owned.private repo)) (yielded user_repos)) /\
  map Listing.name (find_own_repositories (Some user_repos))
  = map Owned.full_name
      (filter (fun repo => negb (Owned.private repo)) (yielded user_repos)) /\
  (forall r, In r (find_own_repositories (Some user_repos)) ->
             Listing.description r <> "") /\
  (List.length (find_own_repositories (Some user_repos))
   <= List.length (yielded user_repos))%nat.
Proof.
  assert (E : find_own_repositories (Some user_repos)
              = map listing_of
                  (filter (fun repo => negb (Owned.private repo))
                     (yielded user_repos))).
  { unfold find_own_repositories. now rewrite list_repos_spec. }
  split; [reflexivity|]. split; [exact E|]. rewrite E.
  split; [|split].
  - rewrite map_map. reflexivity.
  - intros r Hr. apply in_map_iff in Hr. destruct Hr as (repo & <- & _).
    unfold listing_of. simpl.
    destruct (Owned.description repo) as [d|]; [|discriminate].
    destruct (String.eqb_spec d ""); [discriminate|assumption].
  - rewrite length_map. apply filter_length_le.
Qed.

Lemma routine_returns (clock : Clock) (delay_seconds : option Z)
    (o : Oracle) :
  exists result, returned (routine_run clock delay_seconds o) = Some result.
Proof.
  unfold routine_run, QuickdrawAutomation.create_and_close_issue_quickly,
    sleep_for.
  cbv zeta. fold (delay_of delay_seconds).
  generalize (taken clock (delay_of delay_seconds)).
  generalize (delay_of delay_seconds).
  intros d b. destruct b; run_workflow o; eexists; reflexivity.
Qed.

Lemma go_on_spec (clock : Clock) (repo_name : string) (delay : Z)
    (before : list step) (o : Oracle) :
  go_on clock repo_name delay before o
  = (before ++ Create_and_close_issue_quickly repo_name delay
            :: map Routine (events (routine_run clock (Some delay) o)),
     Some tt).
Proof.
  destruct (routine_returns clock (Some delay) o) as [result H].
  unfold go_on. unfold routine_run, returned, events in *.
  destruct (run _ o) as [t r]. simpl in *. now subst r.
Qed.

Lemma routine_events_map (t : list event) :
  routine_events (map Routine t) = t.
Proof.
  induction t as [|e t IH]; simpl; now rewrite ?IH.
Qed.

Lemma listed_is_public (user_repos : option (paged Owned.repo))
    (r : Listing.t) :
  In r (find_own_repositories user_repos) ->
  exists listed repo,
    user_repos = Some listed /\ In repo (yielded listed) /\
    Owned.private repo = false /\ Owned.full_name repo = Listing.name r.
Proof.
  destruct user_repos as [listed|]; [|intros []].
  unfold find_own_repositories. rewrite list_repos_spec. simpl.
  intros H. apply in_map_iff in H. destruct H as (repo & <- & H).
  apply filter_In in H. destruct H as [Hin Hp].
  exists listed, repo. repeat split; try assumption.
  now destruct (Owned.private repo).
Qed.

Lemma not_falsy (repo : option string) :
  repo = None \/ repo = Some "" -> (if truthy repo then repo else None) = None.
Proof.
  intros [->| ->]; reflexivity.
Qed.

(** X16: [quick_issue] calls the fast-close routine on the repository
    given by [--repo], without listing or prompting, when one is given.
    Otherwise it first lists the repositories; when none is listed it ends
    there, without prompting; else it prompts, and calls the routine on
    the listed repository whose number, counted from 1, was entered,
    exactly when that number is between 1 and the length of the list: a
    number out of range ends the command, an aborted prompt ends it with
    an exception.  The routine is only ever called with the given delay,
    and on the [--repo] value or on a public repository that the listing
    yielded; no call of the routine reaches the service unless the
    routine was called. *)
Theorem X16_quick_issue (clock : Clock) (repo : option string) (delay : Z)
    (user_repos : option (paged Owned.repo)) (choice : option Z)
    (o : Oracle) :
  (forall r, repo = Some r -> r <> "" ->
     (quick_issue clock repo delay user_repos choice o)
     = (Create_and_close_issue_quickly r delay
          :: map Routine (events (routine_run clock (Some delay) o)),
        Some tt)) /\
  (repo = None \/ repo = Some "" ->
   (find_own_repositories user_repos = [] ->
    quick_issue clock repo delay user_repos choice o
    = ([Find_own_repositories], Some tt)) /\
   (find_own_repositories user_repos <> [] ->
    (choice = None -> quick_issue clock repo delay user_repos choice o
    = ([Find_own_repositories; Prompt], None)) /\
    (forall c, choice = Some c ->
       (1 <= c <= Z.of_nat (List.length (find_own_repositories user_repos)) ->
        exists r,
          nth_error (find_own_repositories user_repos) (Z.to_nat (c - 1))
          = Some r /\
          (quick_issue clock repo delay user_repos choice o)
          = ([Find_own_repositories; Prompt;
              Create_and_close_issue_quickly (Listing.name r) delay]
               ++ map Routine (events (routine_run clock (Some delay) o)),
             Some tt)) /\
       (~ 1 <= c
            <= Z.of_nat (List.length (find_own_repositories user_repos)) ->
        quick_issue clock repo delay user_repos choice o
    = ([Find_own_repositories; Prompt], Some tt))))) /\
  (forall repo_name delay_seconds,
      In (Create_and_close_issue_quickly repo_name delay_seconds) (fst (quick_issue clock repo delay user_repos choice o)) ->
      delay_seconds = delay /\
      (repo = Some repo_name \/
       exists listed r,
         user_repos = Some listed /\ In r (yielded listed) /\
         Owned.private r = false /\ Owned.full_name r = repo_name)) /\
  (routine_events (fst (quick_issue clock repo delay user_repos choice o)) <> [] ->
   exists repo_name,
     In (Create_and_close_issue_quickly repo_name delay) (fst (quick_issue clock repo delay user_repos choice o))).
Proof.
  assert (Hnomap : forall n d t,
             ~ In (Create_and_close_issue_quickly n d) (map Routine t)).
  { intros n d t H. apply in_map_iff in H.
    destruct H as (e & He & _). discriminate. }
  assert (Hrange : forall c (l : list Listing.t),
             (1 <=? c) && (c <=? Z.of_nat (List.length l)) = true
             <-> 1 <= c <= Z.of_nat (List.length l)).
  { intros c l. rewrite andb_true_iff, !Z.leb_le. tauto. }
  split; [|split; [|split]].
  - intros r -> Hr. unfold quick_issue, truthy.
    destruct (String.eqb_spec r ""); [contradiction|]. simpl.
    now rewrite go_on_spec.
  - intros Hrepo. unfold quick_issue. rewrite (not_falsy _ Hrepo).
    cbv zeta.
    destruct (find_own_repositories user_repos) as [|r0 l] eqn:E.
    + split; [reflexivity|]. intros H. now contradiction H.
    + split; [discriminate|]. intros _. split.
      * intros ->. reflexivity.
      * intros c ->.
        destruct ((1 <=? c) && (c <=? Z.of_nat (List.length (r0 :: l))))
          eqn:B.
        -- split; [|intros H; apply Hrange in B; contradiction].
           intros Hc.
           destruct (nth_error (r0 :: l) (Z.to_nat (c - 1))) as [r|] eqn:En.
           ++ exists r. split; [reflexivity|]. now rewrite go_on_spec.
           ++ apply nth_error_None in En. lia.
        -- split; [|reflexivity]. intros Hc. apply Hrange in Hc.
           rewrite Hc in B. discriminate.
  - intros repo_name delay_seconds. unfold quick_issue.
    destruct (if truthy repo then repo else None) as [r|] eqn:Er.
    + rewrite go_on_spec. simpl. intros [H|H].
      * injection H as <- <-. split; [reflexivity|]. left.
        destruct (truthy repo); [exact Er|discriminate].
      * now apply Hnomap in H.
    + cbv zeta.
      destruct (find_own_repositories user_repos) as [|r0 l] eqn:E.
      * simpl. intros [H|[]]. discriminate.
      * destruct choice as [c|].
        -- destruct ((1 <=? c) && (c <=? Z.of_nat (List.length (r0 :: l)))).
           ++ destruct (nth_error (r0 :: l) (Z.to_nat (c - 1))) as [r|] eqn:En.
              ** rewrite go_on_spec. simpl.
                 intros [H|[H|[H|H]]]; try discriminate.
                 --- injection H as <- <-. split; [reflexivity|]. right.
                     apply nth_error_In in En. rewrite <- E in En.
                     destruct (listed_is_public _ _ En)
                       as (listed & repo' & H1 & H2 & H3 & H4).
                     exists listed, repo'. auto.
                 --- now apply Hnomap in H.
              ** simpl. intros [H|[H|[]]]; discriminate.
           ++ simpl. intros [H|[H|[]]]; discriminate.
        -- simpl. intros [H|[H|[]]]; discriminate.
  - unfold quick_issue.
    destruct (if truthy repo then repo else None) as [r|] eqn:Er.
    + rewrite go_on_spec. simpl. intros _. exists r. now left.
    + cbv zeta.
      destruct (find_own_repositories user_repos) as [|r0 l] eqn:E.
      * simpl. intros H. now contradiction H.
      * destruct choice as [c|].
        -- destruct ((1 <=? c) && (c <=? Z.of_nat (List.length (r0 :: l)))).
           ++ destruct (nth_error (r0 :: l) (Z.to_nat (c - 1))) as [r|] eqn:En.
              ** rewrite go_on_spec. simpl. intros _.
                 exists (Listing.name r). auto.
              ** simpl. intros H. now contradiction H.
           ++ simpl. intros H. now contradiction H.
        -- simpl. intros H. now contradiction H.
Qed.

(** ** Matching by derivatives *)

Lemma lang_class_inv (p : ascii -> bool) (s : list ascii) :
  lang (Re.Class p) s <-> exists c, s = [c] /\ p c = true.
Proof.
  split.
  - intros H. inversion H; subst. eauto.
  - intros (c & -> & H). now constructor.
Qed.

Lemma lang_seq_inv (a b : Re.t) (s : list ascii) :
  lang (Re.Seq a b) s <-> exists s1 s2, s = s1 ++ s2 /\ lang a s1 /\ lang b s2.
Proof.
  split.
  - intros H. inversion H; subst. eauto.
  - intros (s1 & s2 & -> & H1 & H2). now constructor.
Qed.

Lemma lang_alt_inv (a b : Re.t) (s : list ascii) :
  lang (Re.Alt a b) s <-> lang a s \/ lang b s.
Proof.
  split.
  - intros H. inversion H; subst; auto.
  - intros [H|H]; [now apply lang_alt_l|now apply lang_alt_r].
Qed.

Lemma nullable_lang (r : Re.t) : Re.nullable r = true <-> lang r [].
Proof.
  induction r as [| |p|a IHa b IHb|a IHa b IHb|a IHa]; simpl.
  - split; [discriminate|]. intros H. inversion H.
  - split; [constructor|reflexivity].
  - split; [discriminate|]. intros H. inversion H.
  - rewrite andb_true_iff, IHa, IHb, lang_seq_inv. split.
    + intros [Ha Hb]. exists [], []. auto.
    + intros (s1 & s2 & E & H1 & H2). symmetry in E.
      apply app_eq_nil in E. destruct E; subst. auto.
  - rewrite orb_true_iff, IHa, IHb, lang_alt_inv. tauto.
  - split; [constructor|reflexivity].
Qed.

Lemma star_uncons (a : Re.t) (c : ascii) (s : list ascii) :
  lang (Re.Star a) (c :: s) ->
  exists s1 s2, s = s1 ++ s2 /\ lang a (c :: s1) /\ lang (Re.Star a) s2.
Proof.
  intros H. remember (Re.Star a) as r eqn:Er. remember (c :: s) as w eqn:Ew.
  induction H as [| | | | | |a' s1 s2 H1 _ H2 IH2]; try discriminate.
  injection Er as ->. destruct s1 as [|c' s1].
  - simpl in Ew. apply IH2; [reflexivity|exact Ew].
  - simpl in Ew. injection Ew as -> <-. exists s1, s2. auto.
Qed.

Lemma deriv_lang (r : Re.t) (c : ascii) (s : list ascii) :
  lang (Re.deriv c r) s <-> lang r (c :: s).
Proof.
  revert s.
  induction r as [| |p|a IHa b IHb|a IHa b IHb|a IHa]; intros s; simpl.
  - split; intros H; inversion H.
  - split; intros H; inversion H.
  - rewrite lang_class_inv. destruct (p c) eqn:E; split.
    + intros H. inversion H; subst. exists c. auto.
    + intros (c' & Ec & _). injection Ec as _ ->. constructor.
    + intros H. inversion H.
    + intros (c' & Ec & H). injection Ec as <- _. congruence.
  - assert (Hseq : lang (Re.Seq (Re.deriv c a) b) s ->
                   lang (Re.Seq a b) (c :: s)).
    { rewrite !lang_seq_inv. intros (s1 & s2 & -> & H1 & H2).
      apply IHa in H1. exists (c :: s1), s2. auto. }
    assert (Hinv : lang (Re.Seq a b) (c :: s) ->
                   lang (Re.Seq (Re.deriv c a) b) s \/
                   (lang a [] /\ lang (Re.deriv c b) s)).
    { rewrite !lang_seq_inv. intros (s1 & s2 & E & H1 & H2).
      destruct s1 as [|c' s1].
      - simpl in E. subst s2. right. split; [exact H1|now apply IHb].
      - simpl in E. injection E as <- ->. left.
        exists s1, s2. split; [reflexivity|]. split; [now apply IHa|exact H2]. }
    destruct (Re.nullable a) eqn:Na.
    + rewrite lang_alt_inv. split.
      * intros [H|H]; [now apply Hseq|].
        apply nullable_lang in Na. apply IHb in H.
        apply (lang_seq a b [] (c :: s) Na H).
      * intros H. destruct (Hinv H) as [H1|[_ H1]]; auto.
    + split; [exact Hseq|]. intros H.
      destruct (Hinv H) as [H1|[H1 _]]; [exact H1|].
      apply nullable_lang in H1. congruence.
  - rewrite !lang_alt_inv, IHa, IHb. tauto.
  - rewrite lang_seq_inv. split.
    + intros (s1 & s2 & -> & H1 & H2).
      apply IHa in H1. apply (lang_star_more a (c :: s1) s2 H1 H2).
    + intros H. destruct (star_uncons _ _ _ H) as (s1 & s2 & -> & H1 & H2).
      exists s1, s2. split; [reflexivity|]. split; [now apply IHa|exact H2].
Qed.

Lemma full_match_lang (r : Re.t) (s : list ascii) :
  Re.full_match r s = true <-> lang r s.
Proof.
  revert r. induction s as [|c s IH]; intros r; simpl.
  - apply nullable_lang.
  - rewrite IH. apply deriv_lang.
Qed.

Lemma lang_star_class (p : ascii -> bool) (s : list ascii) :
  lang (Re.Star (Re.Class p)) s <-> forallb p s = true.
Proof.
  split.
  - intros H. remember (Re.Star (Re.Class p)) as r eqn:Er.
    induction H as [| | | | | |a s1 s2 H1 _ H2 IH2]; try discriminate;
      [reflexivity|].
    injection Er as ->. apply lang_class_inv in H1.
    destruct H1 as (c & -> & Hc). simpl. rewrite Hc. now apply IH2.
  - induction s as [|c s IH]; simpl; [constructor|].
    rewrite andb_true_iff. intros [Hc Hs].
    apply (lang_star_more (Re.Class p) [c] s); [now constructor|auto].
Qed.

Lemma lang_plus_class (p : ascii -> bool) (s : list ascii) :
  lang (Re.Plus (Re.Class p)) s <-> s <> [] /\ forallb p s = true.
Proof.
  unfold Re.Plus. rewrite lang_seq_inv. split.
  - intros (s1 & s2 & -> & H1 & H2). apply lang_class_inv in H1.
    destruct H1 as (c & -> & Hc). apply lang_star_class in H2.
    simpl. rewrite Hc, H2. split; [discriminate|reflexivity].
  - intros [Hne H]. destruct s as [|c s]; [contradiction|].
    simpl in H. apply andb_true_iff in H. destruct H as [Hc Hs].
    exists [c], s. split; [reflexivity|].
    split; [now constructor|now apply lang_star_class].
Qed.

Lemma lang_pattern (s : list ascii) :
  lang CoAuthorHelper.pattern s <-> address s.
Proof.
  unfold CoAuthorHelper.pattern, address. split.
  - intros H.
    apply lang_seq_inv in H. destruct H as (l & r1 & -> & Hl & H).
    apply lang_seq_inv in H. destruct H as (a & r2 & -> & Ha & H).
    apply lang_seq_inv in H. destruct H as (d & r3 & -> & Hd & H).
    apply lang_seq_inv in H. destruct H as (dot & r4 & -> & Hdot & H).
    apply lang_seq_inv in H. destruct H as (t1 & r5 & -> & Ht1 & H).
    apply lang_seq_inv in H. destruct H as (t2 & t3 & -> & Ht2 & Ht3).
    apply lang_plus_class in Hl, Hd. destruct Hl as [Hl1 Hl2], Hd as [Hd1 Hd2].
    apply lang_class_inv in Ha, Hdot, Ht1, Ht2.
    destruct Ha as (c1 & -> & Hc1), Hdot as (c2 & -> & Hc2),
      Ht1 as (c3 & -> & Hc3), Ht2 as (c4 & -> & Hc4).
    apply Ascii.eqb_eq in Hc1, Hc2. subst c1 c2.
    apply lang_star_class in Ht3.
    exists l, d, (c3 :: c4 :: t3). simpl.
    rewrite Hc3, Hc4, Ht3. repeat split; auto. lia.
  - intros (l & d & t & -> & Hl1 & Hl2 & Hd1 & Hd2 & Ht1 & Ht2).
    destruct t as [|c3 [|c4 t3]]; simpl in Ht1; try lia.
    simpl in Ht2. apply andb_true_iff in Ht2. destruct Ht2 as [Hc3 Ht2].
    apply andb_true_iff in Ht2. destruct Ht2 as [Hc4 Ht3].
    apply (lang_seq _ _ l); [now apply lang_plus_class|].
    apply (lang_seq _ _ ["@"%char]);
      [constructor; apply Ascii.eqb_refl|].
    apply (lang_seq _ _ d); [now apply lang_plus_class|].
    apply (lang_seq _ _ ["."%char]);
      [constructor; apply Ascii.eqb_refl|].
    apply (lang_seq _ _ [c3]); [now constructor|].
    apply (lang_seq _ _ [c4]); [now constructor|].
    now apply lang_star_class.
Qed.

Lemma match_anchored_spec (r : Re.t) (s : list ascii) :
  Re.match_anchored r s = true <->
  lang r s \/ exists before, s = before ++ [ascii_of_nat 10] /\ lang r before.
Proof.
  unfold Re.match_anchored. rewrite orb_true_iff, full_match_lang.
  split; intros [H|H]; auto; right.
  - destruct (rev s) as [|c before] eqn:E; [discriminate|].
    apply andb_true_iff in H. destruct H as [Hc H].
    apply Ascii.eqb_eq in Hc. subst c. apply full_match_lang in H.
    exists (rev before). split; [|exact H].
    rewrite <- (rev_involutive s), E. reflexivity.
  - destruct H as (before & -> & H). rewrite rev_app_distr. simpl.
    rewrite rev_involutive. now apply full_match_lang.
Qed.

Lemma validate_email_shape (email : string) :
  CoAuthorHelper.validate_email email = true <->
  address (list_ascii_of_string email) \/
  exists before,
    list_ascii_of_string email = before ++ [ascii_of_nat 10] /\
    address before.
Proof.
  unfold CoAuthorHelper.validate_email.
  rewrite match_anchored_spec, lang_pattern.
  split; intros [H|(b & E & H)]; auto; right; exists b;
    (split; [exact E|]); now apply lang_pattern.
Qed.

(** X17: [validate_email] accepts exactly the strings made of a local
    part of one or more characters among letters, digits and [._%+-], an
    at sign, a domain of one or more characters among letters, digits,
    dot and hyphen, a dot and two or more letters, and the same strings
    followed by one newline. *)
Theorem X17_validate_email (email : string) :
  CoAuthorHelper.validate_email email = true <->
  address (list_ascii_of_string email) \/
  exists before,
    list_ascii_of_string email = before ++ [ascii_of_nat 10] /\
    address before.
Proof. apply validate_email_shape. Qed.

(** ** Commit messages with co-authors *)

Import CoAuthorHelper.

Lemma add_coauthors_valid (coauthors : list coauthor) (parts : list string) :
  forallb (fun a => validate_email (email a)) coauthors = true ->
  add_coauthors coauthors parts = Ok (parts ++ map trailer coauthors).
Proof.
  revert parts. induction coauthors as [|a l IH]; intros parts; simpl.
  - intros _. now rewrite app_nil_r.
  - rewrite andb_true_iff. intros [Ha Hl].
    unfold generate_coauthor_line. rewrite Ha. simpl.
    rewrite (IH _ Hl), <- app_assoc. reflexivity.
Qed.

Lemma add_coauthors_invalid (before after : list coauthor) (a : coauthor)
    (parts : list string) :
  forallb (fun a => validate_email (email a)) before = true ->
  validate_email (email a) = false ->
  add_coauthors (before ++ a :: after) parts
  = ValueError ("Invalid email format: " ++ email a)%string.
Proof.
  revert parts. induction before as [|b l IH]; intros parts; simpl.
  - intros _ Ha. unfold generate_coauthor_line. now rewrite Ha.
  - rewrite andb_true_iff. intros [Hb Hl] Ha.
    unfold generate_coauthor_line. rewrite Hb. simpl. now apply IH.
Qed.

(** What [create_commit_message] does with a list of co-authors. *)
Lemma commit_message_with_coauthors (title : string) (description : option string)
    (coauthors : list coauthor) :
  (forallb (fun a => validate_email (email a)) coauthors = true ->
   create_commit_message title description (Some coauthors)
   = Ok (String.concat newline
           ([title] ++ body description
            ++ match coauthors with
               | [] => []
               | _ :: _ => "" :: map trailer coauthors
               end))) /\
  (forall before a after,
      coauthors = before ++ a :: after ->
      forallb (fun a => validate_email (email a)) before = true ->
      validate_email (email a) = false ->
      create_commit_message title description (Some coauthors)
      = ValueError ("Invalid email format: " ++ email a)%string).
Proof.
  split.
  - intros Hv. unfold create_commit_message.
    destruct coauthors as [|a l].
    + rewrite app_nil_r. unfold body.
      destruct description as [d|]; [|reflexivity].
      destruct (String.eqb d ""); reflexivity.
    + rewrite (add_coauthors_valid _ _ Hv). unfold body.
      destruct description as [d|]; simpl;
        [destruct (String.eqb d ""); simpl|]; rewrite <- ?app_assoc;
        reflexivity.
  - intros before a after -> Hb Ha. unfold create_commit_message.
    pose proof (fun parts => add_coauthors_invalid before after a parts Hb Ha)
      as E.
    destruct before as [|b l]; simpl app in *; cbv beta iota zeta;
      rewrite E; reflexivity.
Qed.

(** X18: [create_commit_message] joins with newlines the title, then an
    empty line and the description when there is one, then an empty line
    and one trailer per co-author, in their order, when there are any;
    with nothing but a title it returns the title.  It raises for the
    first co-author whose email [validate_email] rejects, naming that
    email, and for no other reason. *)
Theorem X18_create_commit_message (title : string)
    (description : option string) (coauthors : list coauthor) :
  create_commit_message title None None = Ok title /\
  create_commit_message title (Some "") (Some []) = Ok title /\
  create_commit_message title description None
  = Ok (String.concat newline ([title] ++ body description)) /\
  (forallb (fun a => validate_email (email a)) coauthors = true ->
   create_commit_message title description (Some coauthors)
   = Ok (String.concat newline
           ([title] ++ body description
            ++ match coauthors with
               | [] => []
               | _ :: _ => "" :: map trailer coauthors
               end))) /\
  (forall before a after,
      coauthors = before ++ a :: after ->
      forallb (fun a => validate_email (email a)) before = true ->
      validate_email (email a) = false ->
      create_commit_message title description (Some coauthors)
      = ValueError ("Invalid email format: " ++ email a)%string).
Proof.
  split; [reflexivity|]. split; [reflexivity|]. split.
  - unfold create_commit_message, body.
    destruct description as [d|]; [|reflexivity].
    destruct (String.eqb d ""); reflexivity.
  - apply commit_message_with_coauthors.
Qed.

Lemma coauthors_collected (pairs : list (string * string))
    (acc : list coauthor) :
  fold_left
    (fun coauthors '(n, e) =>
       let _ := validate_email e in
       coauthors ++ [{| name := n; email := e |}])
    pairs acc
  = acc ++ map (fun p => {| name := fst p; email := snd p |}) pairs.
Proof.
  revert acc. induction pairs as [|[n e] l IH]; intros acc; simpl.
  - now rewrite app_nil_r.
  - now rewrite IH, <- app_assoc.
Qed.

Lemma first_invalid (coauthors : list coauthor) :
  forallb (fun a => validate_email (email a)) coauthors = false ->
  exists before a after,
    coauthors = before ++ a :: after /\
    forallb (fun a => validate_email (email a)) before = true /\
    validate_email (email a) = false.
Proof.
  induction coauthors as [|a l IH]; simpl; [discriminate|].
  destruct (validate_email (email a)) eqn:Ea; simpl.
  - intros H. destruct (IH H) as (b & x & r & -> & Hb & Hx).
    exists (a :: b), x, r. simpl. rewrite Ea. auto.
  - intros _. exists [], a, l. auto.
Qed.

(** X19: the command [create_message] stops with its own message only
    when the numbers of names and emails differ.  Otherwise it hands every
    name with its email to [create_commit_message], valid or not: the
    check in its loop rejects nothing, so an email that [validate_email]
    rejects ends the command with the [ValueError] of
    [create_commit_message] instead of a message. *)
Theorem X19_create_message (title : string) (description : option string)
    (names emails : list string) :
  (List.length names <> List.length emails ->
   create_message title description names emails = None) /\
  (List.length names = List.length emails ->
   create_message title description names emails
   = Some (create_commit_message title description
             (Some (map (fun p => {| name := fst p; email := snd p |})
                      (combine names emails)))) /\
   (forallb validate_email emails = true ->
    exists message,
      create_message title description names emails = Some (Ok message)) /\
   (forallb validate_email emails = false ->
    exists e,
      In e emails /\ validate_email e = false /\
      create_message title description names emails
      = Some (ValueError ("Invalid email format: " ++ e)%string))).
Proof.
  unfold create_message. split.
  - intros H. apply Nat.eqb_neq in H. now rewrite H.
  - intros H. pose proof H as Hlen. apply Nat.eqb_eq in H. rewrite H. simpl.
    rewrite coauthors_collected. simpl.
    set (coauthors := map (fun p => {| name := fst p; email := snd p |})
                        (combine names emails)).
    assert (Hemails : map email coauthors = emails).
    { unfold coauthors. rewrite map_map. simpl.
      clear -Hlen. revert emails Hlen.
      induction names as [|n names IH]; intros [|e emails] Hlen;
        try discriminate; simpl; [reflexivity|].
      f_equal. apply IH. simpl in Hlen. congruence. }
    assert (Hvalid : forallb (fun a => validate_email (email a)) coauthors
                     = forallb validate_email emails).
    { rewrite <- Hemails. clear. induction coauthors as [|a l IH]; simpl;
        [reflexivity|now rewrite IH]. }
    split; [reflexivity|]. split.
    + intros Hv. rewrite <- Hvalid in Hv.
      destruct (commit_message_with_coauthors title description coauthors) as [Hok _].
      rewrite (Hok Hv). eauto.
    + intros Hv. rewrite <- Hvalid in Hv.
      destruct (first_invalid _ Hv) as (b & a & r & E & Hb & Ha).
      exists (email a). split; [|split; [exact Ha|]].
      * rewrite <- Hemails, E, map_app. apply in_or_app. right. now left.
      * destruct (commit_message_with_coauthors title description coauthors) as [_ Herr].
        now rewrite (Herr b a r E Hb Ha).
Qed.

(** ** No-reply addresses *)

Lemma list_ascii_of_string_app (a b : string) :
  list_ascii_of_string (a ++ b)%string
  = list_ascii_of_string a ++ list_ascii_of_string b.
Proof. induction a as [|c a IH]; simpl; [reflexivity|now rewrite IH]. Qed.

Lemma forallb_not_in (p : ascii -> bool) (c : ascii) (l : list ascii) :
  forallb p l = true -> p c = false -> ~ In c l.
Proof.
  intros Hl Hc Hin. rewrite forallb_forall in Hl.
  specialize (Hl c Hin). congruence.
Qed.

(** Where a list splits at the first occurrence of [c]. *)
Lemma first_split (c : ascii) (l r L R : list ascii) :
  ~ In c l ->
  l ++ c :: r = L ++ c :: R ->
  l = L \/ exists m, L = l ++ c :: m /\ r = m ++ c :: R.
Proof.
  revert L. induction l as [|a l IH]; intros L Hl E.
  - destruct L as [|x L]; simpl in E.
    + now left.
    + injection E as <- ->. right. exists L. auto.
  - destruct L as [|x L]; simpl in E.
    + injection E as -> _. exfalso. apply Hl. now left.
    + injection E as <- E.
      destruct (IH L) as [->|(m & -> & ->)]; [|exact E|now left|].
      * intros H. apply Hl. now right.
      * right. exists m. auto.
Qed.

Lemma noreply_shape (username : string) (user_id : option string) :
  list_ascii_of_string (get_github_noreply_email username user_id)
  = list_ascii_of_string (noreply_local username user_id)
    ++ "@"%char :: list_ascii_of_string "users.noreply.github.com".
Proof.
  unfold get_github_noreply_email, noreply_local.
  destruct user_id as [id|]; [destruct (String.eqb id "")|]; simpl negb;
    cbv iota; rewrite ?list_ascii_of_string_app; simpl;
    rewrite <- ?app_assoc; reflexivity.
Qed.

(** X20: the no-reply address made for a user name (with or without a
    user id) passes [validate_email] exactly when the part before the at
    sign is not empty and holds only letters, digits and [._%+-]; so the
    addresses of accounts whose name holds a bracket, as the bot accounts
    do, are rejected. *)
Theorem X20_noreply_email (username : string) (user_id : option string) :
  validate_email (get_github_noreply_email username user_id) = true <->
  noreply_local username user_id <> "" /\
  forallb local_char
    (list_ascii_of_string (noreply_local username user_id)) = true.
Proof.
  rewrite validate_email_shape, noreply_shape.
  set (L := list_ascii_of_string (noreply_local username user_id)).
  assert (HL : noreply_local username user_id <> "" <-> L <> []).
  { unfold L. destruct (noreply_local username user_id); simpl;
      split; intros H; congruence. }
  rewrite HL. split.
  - intros [H|(before & E & _)].
    + destruct H as (l & d & t & E & Hl1 & Hl2 & Hd1 & Hd2 & Ht1 & Ht2).
      assert (Hat : ~ In "@"%char l)
        by (apply (forallb_not_in _ _ _ Hl2); reflexivity).
      symmetry in E. apply first_split in E; [|exact Hat].
      destruct E as [->|(m & _ & Er)]; [auto|].
      exfalso.
      assert (Hin : In "@"%char (d ++ "."%char :: t)).
      { rewrite Er. apply in_or_app. right. now left. }
      apply in_app_or in Hin. destruct Hin as [Hin|[Hin|Hin]].
      * revert Hin. apply (forallb_not_in _ _ _ Hd2). reflexivity.
      * discriminate.
      * revert Hin. apply (forallb_not_in _ _ _ Ht2). reflexivity.
    + exfalso. apply (f_equal (@rev ascii)) in E.
      rewrite !rev_app_distr in E. simpl in E. discriminate.
  - intros [Hne Hl]. left.
    exists L, (list_ascii_of_string "users.noreply.github"),
      (list_ascii_of_string "com").
    repeat split; auto; try discriminate. simpl. lia.
Qed.
